(** * pyGRU4REC: the session GRU layer of [modules/layer.py]

    A shallow embedding of the [GRU] class: the one-hot scratch buffer and
    [emb], the forward step with its in-batch sampling, hidden-state
    initialisation and the mode switch.

    Tensors are lists of rows.  The scalar type of a [torch.FloatTensor]
    and the random generator are interfaces ([Scalar], [Random]); tensors
    that the source mutates in place live in a store and are named by
    locations, so that two handles on one tensor are visibly the same. *)

From Stdlib Require Import ZArith Lia String Floats.
From stdpp Require Import base numbers list.

Set Default Proof Using "Type".

(** ** Scalars and randomness *)

(** The element type of float tensors with the operations the layer and the
    torch kernels it calls apply to it. *)
Class Scalar (F : Type) := {
  fzero : F;
  fone : F;
  fadd : F -> F -> F;
  fsub : F -> F -> F;
  fmul : F -> F -> F;
  fdiv : F -> F -> F;
  fsigmoid : F -> F;
  ftanh : F -> F;
  fltb : F -> F -> bool;
  fleb : F -> F -> bool
}.

(** The generator behind [torch.bernoulli] and the weight initialisers:
    a state [R], one coin with a given success probability, one initial
    weight. *)
Class Random (F R : Type) := {
  bernoulli1 : F -> R -> bool * R;
  uniform1 : R -> F * R
}.

(** ** Tensors, store and the effect monad *)

Inductive device := Cpu | Cuda.

Inductive error :=
| RangeError   (* an index outside the indexed dimension *)
| ShapeError   (* sizes that do not fit *)
| ValueError   (* an argument a constructor refuses *)
| DeviceError  (* the accelerator is asked for and there is none *)
| DanglingRef. (* a location outside the store; no Python handle dangles *)

Definition loc := nat.

(** A 2-D float tensor held by reference: where it lives and its rows. *)
Record storage (F : Type) := Storage {
  placed : device;
  rows : list (list F)
}.
Arguments Storage {F} _ _.
Arguments placed {F} _.
Arguments rows {F} _.

(** Everything a call can read or change besides the layer object:
    the tensors held by reference, the generator, what freshly
    allocated (uninitialised) memory happens to contain, the printed
    lines, and whether the machine has an accelerator. *)
Record world (F R : Type) := World {
  heap : list (storage F);
  gen : R;
  junk : nat -> nat -> F;
  stdout : list string;
  cuda_available : bool
}.
Arguments World {F R} _ _ _ _ _.
Arguments heap {F R} _.
Arguments gen {F R} _.
Arguments junk {F R} _.
Arguments stdout {F R} _.
Arguments cuda_available {F R} _.

(** A Python call: it may raise, and what it changed before raising stays
    changed. *)
Definition M (F R A : Type) : Type := world F R -> (error + A) * world F R.

Definition ret {F R A} (a : A) : M F R A := fun w => (inr a, w).

Definition throw {F R A} (e : error) : M F R A := fun w => (inl e, w).

Definition bind {F R A B} (c : M F R A) (k : A -> M F R B) : M F R B :=
  fun w =>
    match c w with
    | (inr a, w') => k a w'
    | (inl e, w') => (inl e, w')
    end.

Declare Scope py_scope.
Delimit Scope py_scope with py.
Notation "'let*' x ':=' c 'in' k" := (bind c (fun x => k))
  (at level 10, x pattern, c at level 100, k at level 200) : py_scope.
Notation "c ';;' k" := (bind c (fun _ => k))
  (at level 100, k at level 200, right associativity) : py_scope.
Open Scope py_scope.

Section Store.
Context {F R : Type} `{Scalar F} `{Random F R}.

Definition get_heap : M F R (list (storage F)) :=
  fun w => (inr (heap w), w).

Definition put_heap (h : list (storage F)) : M F R unit :=
  fun w => (inr tt, World h (gen w) (junk w) (stdout w) (cuda_available w)).

Definition deref (l : loc) : M F R (storage F) :=
  let* h := get_heap in
  match h !! l with
  | Some s => ret s
  | None => throw DanglingRef
  end.

Definition assign (l : loc) (s : storage F) : M F R unit :=
  let* h := get_heap in
  if decide (l < length h) then put_heap (<[l := s]> h)
  else throw DanglingRef.

Definition alloc (s : storage F) : M F R loc :=
  let* h := get_heap in
  put_heap (h ++ [s]) ;;
  ret (length h).

(** [print(...)]: one more line on standard output. *)
Definition print (line : string) : M F R unit :=
  fun w => (inr tt, World (heap w) (gen w) (junk w) (stdout w ++ [line])
                      (cuda_available w)).

(** [torch.FloatTensor(n, m)]: a new CPU tensor whose entries are
    whatever the memory held. *)
Definition FloatTensor (n m : nat) : M F R loc :=
  fun w =>
    alloc (Storage Cpu (map (fun i => map (junk w i) (seq 0 m)) (seq 0 n))) w.

(** Moving anything to the device raises on a machine without one. *)
Definition require_device : M F R unit :=
  fun w => if cuda_available w then (inr tt, w) else (inl DeviceError, w).

(** [t.cuda()]: the tensor itself when it is already on the device,
    a copy on the device otherwise. *)
Definition cuda (l : loc) : M F R loc :=
  let* s := deref l in
  match placed s with
  | Cuda => ret l
  | Cpu => require_device ;; alloc (Storage Cuda (rows s))
  end.

(** [t.zero_()]: every entry becomes 0, in place. *)
Definition zero_ (l : loc) : M F R unit :=
  let* s := deref l in
  assign l (Storage (placed s) (map (map (fun _ => fzero)) (rows s))).

(** One write [t[i][k] = src] of the scatter loop; [k] outside the
    row raises. *)
Definition scatter_elem (l : loc) (i : nat) (k : Z) (src : F) : M F R unit :=
  let* s := deref l in
  match rows s !! i with
  | None => throw ShapeError
  | Some row =>
      if (0 <=? k)%Z && (k <? Z.of_nat (length row))%Z then
        assign l (Storage (placed s)
                    (<[i := <[Z.to_nat k := src]> row]> (rows s)))
      else throw RangeError
  end.

Fixpoint scatter_row (l : loc) (i : nat) (ks : list Z) (src : F)
  : M F R unit :=
  match ks with
  | [] => ret tt
  | k :: ks' => scatter_elem l i k src ;; scatter_row l i ks' src
  end.

Fixpoint scatter_loop (l : loc) (i : nat) (index : list (list Z)) (src : F)
  : M F R unit :=
  match index with
  | [] => ret tt
  | ks :: index' =>
      scatter_row l i ks src ;; scatter_loop l (S i) index' src
  end.

(** [t.scatter_(1, index, src)] for a 2-D [t], a 2-D [index] and a
    scalar [src]: [t[i][index[i][j]] = src] for every position of
    [index].  The index may not have more rows than [t]; the sizes are
    checked before the first write, the range of each index as it is
    used. *)
Definition scatter_ (l : loc) (index : list (list Z)) (src : F)
  : M F R unit :=
  let* s := deref l in
  if decide (length index <= length (rows s)) then
    scatter_loop l 0 index src
  else throw ShapeError.

(** [input.view(-1, 1)] of a 1-D tensor: one column. *)
Definition view_column (input : list Z) : list (list Z) :=
  map (fun k => [k]) input.

End Store.

(** ** The layer object *)

(** A learnable tensor: its value and whether autograd tracks it. *)
Record param (A : Type) := MkParam {
  value : A;
  requires_grad : bool
}.
Arguments MkParam {A} _ _.
Arguments value {A} _.
Arguments requires_grad {A} _.

(** [nn.Linear(in_features, out_features)]. *)
Record Linear (F : Type) := MkLinear {
  in_features : nat;
  out_features : nat;
  weight : param (list (list F));   (* (out_features, in_features) *)
  bias : param (list F)             (* (out_features,) *)
}.
Arguments MkLinear {F} _ _ _ _.
Arguments in_features {F} _.
Arguments out_features {F} _.
Arguments weight {F} _.
Arguments bias {F} _.

(** The four parameters of one layer of [nn.GRU], gates stacked in the
    order reset, update, new. *)
Record GRUCell (F : Type) := MkCell {
  weight_ih : param (list (list F));  (* (3H, input width) *)
  weight_hh : param (list (list F));  (* (3H, H) *)
  bias_ih : param (list F);           (* (3H,) *)
  bias_hh : param (list F)            (* (3H,) *)
}.
Arguments MkCell {F} _ _ _ _.
Arguments weight_ih {F} _.
Arguments weight_hh {F} _.
Arguments bias_ih {F} _.
Arguments bias_hh {F} _.

(** [nn.GRU(input_size, hidden_size, num_layers, dropout=...)]; as every
    [nn.Module] it carries a training flag of its own. *)
Record nnGRU (F : Type) := MkRNN {
  rnn_input_size : nat;
  rnn_hidden_size : nat;
  rnn_num_layers : nat;
  rnn_dropout : F;
  rnn_training : bool;
  cells : list (GRUCell F)
}.
Arguments MkRNN {F} _ _ _ _ _ _.
Arguments rnn_input_size {F} _.
Arguments rnn_hidden_size {F} _.
Arguments rnn_num_layers {F} _.
Arguments rnn_dropout {F} _.
Arguments rnn_training {F} _.
Arguments cells {F} _.

(** The attributes [__init__] copies from its arguments (lines 27-35);
    nothing in the class assigns them again. *)
Record hyper (F : Type) := Hyper {
  input_size : nat;
  hidden_size : nat;
  output_size : nat;
  num_layers : nat;
  dropout_input : F;
  dropout_hidden : F;
  batch_size : nat;
  use_cuda : bool
}.
Arguments Hyper {F} _ _ _ _ _ _ _ _.
Arguments input_size {F} _.
Arguments hidden_size {F} _.
Arguments output_size {F} _.
Arguments num_layers {F} _.
Arguments dropout_input {F} _.
Arguments dropout_hidden {F} _.
Arguments batch_size {F} _.
Arguments use_cuda {F} _.

(** The [GRU] object.  [self.tanh] has no state and is the scalar
    [ftanh]. *)
Record GRU (F : Type) := MkGRU {
  hp :> hyper F;
  training : bool;
  onehot_buffer : loc;
  h2o : Linear F;
  gru : nnGRU F
}.
Arguments MkGRU {F} _ _ _ _ _.
Arguments hp {F} _.
Arguments training {F} _.
Arguments onehot_buffer {F} _.
Arguments h2o {F} _.
Arguments gru {F} _.

Section Layer.
Context {F R : Type} `{Scalar F} `{Random F R}.

(** *** Drawing initial weights *)

Definition draw_uniform : M F R F :=
  fun w => let '(x, g) := uniform1 (gen w) in
           (inr x, World (heap w) g (junk w) (stdout w) (cuda_available w)).

Fixpoint draw_vector (n : nat) : M F R (list F) :=
  match n with
  | 0 => ret []
  | S n' => let* x := draw_uniform in
            let* xs := draw_vector n' in
            ret (x :: xs)
  end.

Fixpoint draw_matrix (n m : nat) : M F R (list (list F)) :=
  match n with
  | 0 => ret []
  | S n' => let* r := draw_vector m in
            let* rs := draw_matrix n' m in
            ret (r :: rs)
  end.

(** A new [nn.Parameter]: autograd tracks it. *)
Definition new_param {A} (a : A) : param A := MkParam a true.

Definition Linear_init (n_in n_out : nat) : M F R (Linear F) :=
  let* w := draw_matrix n_out n_in in
  let* b := draw_vector n_out in
  ret (MkLinear n_in n_out (new_param w) (new_param b)).

Definition GRUCell_init (width hidden : nat) : M F R (GRUCell F) :=
  let* w_ih := draw_matrix (3 * hidden) width in
  let* w_hh := draw_matrix (3 * hidden) hidden in
  let* b_ih := draw_vector (3 * hidden) in
  let* b_hh := draw_vector (3 * hidden) in
  ret (MkCell (new_param w_ih) (new_param w_hh)
         (new_param b_ih) (new_param b_hh)).

(** Layer 0 reads the input, every later layer the layer below. *)
Fixpoint GRUCells_init (width hidden layers : nat)
  : M F R (list (GRUCell F)) :=
  match layers with
  | 0 => ret []
  | S layers' =>
      let* c := GRUCell_init width hidden in
      let* cs := GRUCells_init hidden hidden layers' in
      ret (c :: cs)
  end.

(** [nn.GRU(...)] refuses a dropout outside [0, 1], a hidden size of
    zero and a stack without layers.  A module is created in training
    mode. *)
Definition nnGRU_init (n_in hidden layers : nat) (dropout : F)
  : M F R (nnGRU F) :=
  if negb (fleb fzero dropout && fleb dropout fone) then throw ValueError
  else if (hidden =? 0) || (layers =? 0) then throw ValueError
  else
    let* cs := GRUCells_init n_in hidden layers in
    ret (MkRNN n_in hidden layers dropout true cs).

(** *** [init_emb] (lines 102-109) *)

(** Called from [__init__] when only the attributes of [hyper] are
    set. *)
Definition init_emb (self : hyper F) : M F R loc :=
  let* onehot_buffer := FloatTensor (batch_size self) (output_size self) in
  if use_cuda self then cuda onehot_buffer else ret onehot_buffer.

(** *** [__init__] (lines 8-44) *)

(** [self.cuda()] moves the parameters to the device and changes no
    value. *)
Definition GRU_init (input_size hidden_size output_size num_layers : nat)
    (dropout_hidden dropout_input : F) (batch_size : nat)
    (use_cuda training : bool) : M F R (GRU F) :=
  let self := Hyper input_size hidden_size output_size num_layers
                dropout_input dropout_hidden batch_size use_cuda in
  let* onehot_buffer := init_emb self in
  let* h2o := Linear_init hidden_size output_size in
  let* gru := nnGRU_init input_size hidden_size num_layers dropout_hidden in
  (if use_cuda then require_device else ret tt) ;;
  ret (MkGRU self training onehot_buffer h2o gru).

(** *** [emb] (lines 82-100) *)

(** [Variable(self.onehot_buffer)] is a handle on the same tensor;
    [volatile] only concerns autograd. *)
Definition emb (self : GRU F) (input : list Z) (volatile : bool)
  : M F R loc :=
  zero_ (onehot_buffer self) ;;
  let index := view_column input in
  scatter_ (onehot_buffer self) index fone ;;
  let one_hot := onehot_buffer self in
  if use_cuda self then cuda one_hot else ret one_hot.

(** *** [init_hidden] (lines 111-117) *)

Definition zeros3 (n m k : nat) : list (list (list F)) :=
  replicate n (replicate m (replicate k fzero)).

(** [torch.zeros] builds a new tensor; [.cuda()] keeps its values. *)
Definition init_hidden (self : GRU F) : M F R (list (list (list F))) :=
  let h0 := zeros3 (num_layers self) (batch_size self) (hidden_size self) in
  if use_cuda self then ret h0 else ret h0.

(** *** [switch_mode] (lines 119-135) *)

Definition set_grad {A} (b : bool) (p : param A) : param A :=
  MkParam (value p) b.

Definition Linear_set_grad (b : bool) (m : Linear F) : Linear F :=
  MkLinear (in_features m) (out_features m)
    (set_grad b (weight m)) (set_grad b (bias m)).

Definition GRUCell_set_grad (b : bool) (c : GRUCell F) : GRUCell F :=
  MkCell (set_grad b (weight_ih c)) (set_grad b (weight_hh c))
    (set_grad b (bias_ih c)) (set_grad b (bias_hh c)).

Definition nnGRU_set_grad (b : bool) (m : nnGRU F) : nnGRU F :=
  MkRNN (rnn_input_size m) (rnn_hidden_size m) (rnn_num_layers m)
    (rnn_dropout m) (rnn_training m) (map (GRUCell_set_grad b) (cells m)).

(** [m.train(mode)] on the recurrent stack. *)
Definition nnGRU_train (mode : bool) (m : nnGRU F) : nnGRU F :=
  MkRNN (rnn_input_size m) (rnn_hidden_size m) (rnn_num_layers m)
    (rnn_dropout m) mode (cells m).

(** The method returns nothing; the changed object is its result here. *)
Definition switch_mode (self : GRU F) : M F R (GRU F) :=
  (* update the current mode *)
  let self := MkGRU (hp self) (negb (training self)) (onehot_buffer self)
                (h2o self) (gru self) in
  (* print out the current mode *)
  let mode := if training self then "Training"%string
              else "Testing"%string in
  print ("Switching into " ++ mode ++ " mode.")%string ;;
  (* turn on/off gradient updates *)
  let self := MkGRU (hp self) (training self) (onehot_buffer self)
                (Linear_set_grad (training self) (h2o self))
                (nnGRU_set_grad (training self) (gru self)) in
  (* turn on/off dropouts on hidden layers *)
  let self := MkGRU (hp self) (training self) (onehot_buffer self)
                (h2o self) (nnGRU_train (training self) (gru self)) in
  ret self.

(** [self.parameters()], in registration order, as the list of the
    gradient-tracking flags. *)
Definition Linear_flags (m : Linear F) : list bool :=
  [requires_grad (weight m); requires_grad (bias m)].

Definition GRUCell_flags (c : GRUCell F) : list bool :=
  [requires_grad (weight_ih c); requires_grad (weight_hh c);
   requires_grad (bias_ih c); requires_grad (bias_hh c)].

Definition parameters (self : GRU F) : list bool :=
  Linear_flags (h2o self) ++ concat (map GRUCell_flags (cells (gru self))).

End Layer.

(** ** The torch kernels of the forward step *)

Section Kernels.
Context {F R : Type} `{Scalar F} `{Random F R}.

Fixpoint mapM {A B} (f : A -> M F R B) (l : list A) : M F R (list B) :=
  match l with
  | [] => ret []
  | a :: l' => let* b := f a in
               let* bs := mapM f l' in
               ret (b :: bs)
  end.

(** [torch.Tensor(n, m).fill_(x)]. *)
Definition fill (n m : nat) (x : F) : list (list F) :=
  replicate n (replicate m x).

(** One coin of [torch.bernoulli]: 1 with the given probability, else 0. *)
Definition draw_bernoulli (p : F) : M F R F :=
  fun w => let '(c, g) := bernoulli1 p (gen w) in
           (inr (if c then fone else fzero),
            World (heap w) g (junk w) (stdout w) (cuda_available w)).

(** [torch.bernoulli(t)]: an independent coin for every entry of [t]. *)
Definition bernoulli (t : list (list F)) : M F R (list (list F)) :=
  mapM (mapM draw_bernoulli) t.

(** [mask.expand_as(like)] for a one-column [mask]: the column is
    repeated to the width of [like]. *)
Definition expand_row (m : list F) (n : nat) : list F :=
  match m with
  | [c] => replicate n c
  | _ => m
  end.

Definition expand_as (mask like : list (list F)) : list (list F) :=
  zip_with (fun m row => expand_row m (length row)) mask like.

(** Element-wise product of two tensors of one shape. *)
Definition tmul (a b : list (list F)) : list (list F) :=
  zip_with (zip_with fmul) a b.

Definition has_width (n : nat) (t : list (list F)) : bool :=
  forallb (fun r => length r =? n) t.

Definition has_shape2 (n m : nat) (t : list (list F)) : bool :=
  (length t =? n) && has_width m t.

Definition has_shape3 (l n m : nat) (t : list (list (list F))) : bool :=
  (length t =? l) && forallb (has_shape2 n m) t.

Definition dot (u v : list F) : F :=
  foldr fadd fzero (zip_with fmul u v).

(** [x W^T + b] for one row [x]. *)
Definition affine (W : list (list F)) (b : list F) (x : list F) : list F :=
  zip_with fadd (map (fun w => dot w x) W) b.

(** [nn.Linear.forward]: the rows must have [in_features] entries. *)
Definition Linear_forward (m : Linear F) (x : list (list F))
  : M F R (list (list F)) :=
  if has_width (in_features m) x then
    ret (map (affine (value (weight m)) (value (bias m))) x)
  else throw ShapeError.

(** One GRU cell on one session: with the gates r, z and the candidate n,
    [h' = (1 - z) * n + z * h]. *)
Definition gru_cell_row (c : GRUCell F) (hidden : nat) (x h : list F)
  : list F :=
  let gi := affine (value (weight_ih c)) (value (bias_ih c)) x in
  let gh := affine (value (weight_hh c)) (value (bias_hh c)) h in
  let r := map fsigmoid
             (zip_with fadd (take hidden gi) (take hidden gh)) in
  let z := map fsigmoid
             (zip_with fadd (take hidden (drop hidden gi))
                (take hidden (drop hidden gh))) in
  let n := map ftanh
             (zip_with fadd (drop (2 * hidden) gi)
                (zip_with fmul r (drop (2 * hidden) gh))) in
  zip_with (fun zn h => fadd (fmul (fsub fone (fst zn)) (snd zn))
                          (fmul (fst zn) h))
    (zip z n) h.

Definition gru_cell (c : GRUCell F) (hidden : nat) (x h : list (list F))
  : list (list F) :=
  zip_with (gru_cell_row c hidden) x h.

(** One layer over the time steps of a sequence: its outputs and its
    last state. *)
Fixpoint run_layer (c : GRUCell F) (hidden : nat)
    (xs : list (list (list F))) (h : list (list F))
  : list (list (list F)) * list (list F) :=
  match xs with
  | [] => ([], h)
  | x :: xs' =>
      let h1 := gru_cell c hidden x h in
      let '(ys, hT) := run_layer c hidden xs' h1 in
      (h1 :: ys, hT)
  end.

(** [F.dropout(x, p, training=True)] on one entry: kept with probability
    [1 - p] and then scaled by [1 / (1 - p)]. *)
Definition dropout_elem (p : F) (x : F) : M F R F :=
  let* keep := draw_bernoulli (fsub fone p) in
  ret (fdiv (fmul x keep) (fsub fone p)).

Definition dropout3 (p : F) (t : list (list (list F)))
  : M F R (list (list (list F))) :=
  mapM (mapM (mapM (dropout_elem p))) t.

(** The stacked layers.  Dropout sits on the output of every layer but
    the last, and only while the module itself is in training mode and its
    dropout probability is positive. *)
Fixpoint gru_stack (m : nnGRU F) (cs : list (GRUCell F))
    (xs : list (list (list F))) (h0 : list (list (list F)))
  : M F R (list (list (list F)) * list (list (list F))) :=
  match cs, h0 with
  | [], _ => ret (xs, [])
  | c :: cs', h :: h0' =>
      let '(ys, hT) := run_layer c (rnn_hidden_size m) xs h in
      let* ys :=
        match cs' with
        | [] => ret ys
        | _ :: _ =>
            if rnn_training m && fltb fzero (rnn_dropout m)
            then dropout3 (rnn_dropout m) ys
            else ret ys
        end in
      let* (out, hs) := gru_stack m cs' ys h0' in
      ret (out, hT :: hs)
  | _ :: _, [] => throw ShapeError
  end.

(** [nn.GRU.forward(input, h0)] with [input] of shape (T, B, input_size)
    and [h0] of shape (L, B, H); other shapes raise. *)
Definition nnGRU_forward (m : nnGRU F) (input : list (list (list F)))
    (h0 : list (list (list F)))
  : M F R (list (list (list F)) * list (list (list F))) :=
  let batch := match input with [] => 0 | x :: _ => length x end in
  if forallb (has_shape2 batch (rnn_input_size m)) input
     && has_shape3 (rnn_num_layers m) batch (rnn_hidden_size m) h0
  then gru_stack m (cells m) input h0
  else throw ShapeError.

(** A Python index into a dimension of the given size: a negative one
    counts from the end. *)
Definition wrap_index (width : nat) (k : Z) : nat :=
  Z.to_nat (if (k <? 0)%Z then k + Z.of_nat width else k)%Z.

(** [t[:, idx]]: the columns of [t] named by [idx], in that order.  The
    width of [t] is passed along because a tensor without rows still has
    one.  An index outside [-width, width) raises. *)
Definition index_columns (width : nat) (t : list (list F)) (idx : list Z)
  : M F R (list (list F)) :=
  if forallb (fun k => (- Z.of_nat width <=? k)%Z && (k <? Z.of_nat width)%Z)
       idx then
    ret (map (fun row => map (fun k => nth (wrap_index width k) row fzero) idx)
           t)
  else throw RangeError.

End Kernels.

(** ** [forward] (lines 46-80) *)

Section Forward.
Context {F R : Type} `{Scalar F} `{Random F R}.

(** Lines 58-63: dropout on the inputs when training.  Moving the mask
    to the device changes no value. *)
Definition input_dropout (self : GRU F) (embedded : list (list F))
  : M F R (list (list F)) :=
  if training self then
    let p_drop := fill (length embedded) 1
                    (fsub fone (dropout_input self)) in
    let* coins := bernoulli p_drop in
    let mask := expand_as coins embedded in
    ret (tmul embedded mask)
  else ret embedded.

(** Lines 64-75: the recurrent update and the scores of all items. *)
Definition score (self : GRU F) (embedded : list (list F))
    (hidden : list (list (list F)))
  : M F R (list (list F) * list (list (list F))) :=
  let embedded := [embedded] in
  let* (output, hidden) := nnGRU_forward (gru self) embedded hidden in
  let output := concat output in
  let* logit := Linear_forward (h2o self) output in
  let logit := map (map ftanh) logit in
  ret (logit, hidden).

(** Lines 77-78: keep the columns of the targets when training. *)
Definition sample (self : GRU F) (logit : list (list F)) (target : list Z)
  : M F R (list (list F)) :=
  if training self then
    index_columns (out_features (h2o self)) logit target
  else ret logit.

Definition forward (self : GRU F) (embedded : list (list F))
    (target : list Z) (hidden : list (list (list F)))
  : M F R (list (list F) * list (list (list F))) :=
  let* embedded := input_dropout self embedded in
  let* (logit, hidden) := score self embedded hidden in
  let* logit := sample self logit target in
  ret (logit, hidden).

End Forward.

(** ** Vocabulary of the properties *)

Section Vocabulary.
Context {F R : Type} `{Scalar F} `{Random F R}.

Definition with_heap (w : world F R) (h : list (storage F)) : world F R :=
  World h (gen w) (junk w) (stdout w) (cuda_available w).

(** The tensor a handle denotes in a world. *)
Definition read (w : world F R) (l : loc) : option (list (list F)) :=
  rows <$> heap w !! l.

Definition entry (t : list (list F)) (i j : nat) : option F :=
  match t !! i with
  | Some row => row !! j
  | None => None
  end.

(** The one-hot encoding as the spec words it: row [i] has a 1 at column
    [index[i]] and 0 elsewhere. *)
Definition one_hot (C : nat) (index : list Z) : list (list F) :=
  map (fun k => <[Z.to_nat k := fone]> (replicate C fzero)) index.

(** A vector of [B] item indices, each in [0, C). *)
Definition valid_index (B C : nat) (index : list Z) : Prop :=
  length index = B /\ Forall (fun k => (0 <= k < Z.of_nat C)%Z) index.

(** Shapes, as propositions. *)
Definition shape2 (n m : nat) (t : list (list F)) : Prop :=
  length t = n /\ Forall (fun r => length r = m) t.

Definition shape3 (l n m : nat) (t : list (list (list F))) : Prop :=
  length t = l /\ Forall (shape2 n m) t.

(** A (B, C) matrix that is all-zero except one 1 per row, at the column
    the index vector names for that row. *)
Definition is_one_hot (B C : nat) (index : list Z) (t : list (list F))
  : Prop :=
  shape2 B C t
  /\ forall i, i < B ->
       exists k, index !! i = Some k
                 /\ entry t i (Z.to_nat k) = Some fone
                 /\ forall j, j < C -> j <> Z.to_nat k ->
                               entry t i j = Some fzero.

(** What [__init__] leaves behind for [emb]: the scratch buffer is a
    (B, C) tensor of the store, on the device when the layer uses it. *)
Definition buffer_ready (self : GRU F) (w : world F R) : Prop :=
  exists s, heap w !! onehot_buffer self = Some s
            /\ shape2 (batch_size self) (output_size self) (rows s)
            /\ (use_cuda self = true -> placed s = Cuda).

(** The parameter tensors have the shapes their modules were created
    with, and the stack has at least one layer. *)
Definition wf_cell (width hidden : nat) (c : GRUCell F) : Prop :=
  shape2 (3 * hidden) width (value (weight_ih c))
  /\ shape2 (3 * hidden) hidden (value (weight_hh c))
  /\ length (value (bias_ih c)) = 3 * hidden
  /\ length (value (bias_hh c)) = 3 * hidden.

Fixpoint wf_cells (width hidden : nat) (cs : list (GRUCell F)) : Prop :=
  match cs with
  | [] => True
  | c :: cs' => wf_cell width hidden c /\ wf_cells hidden hidden cs'
  end.

Definition wf_layer (self : GRU F) : Prop :=
  1 <= num_layers self
  /\ in_features (h2o self) = hidden_size self
  /\ out_features (h2o self) = output_size self
  /\ shape2 (output_size self) (hidden_size self) (value (weight (h2o self)))
  /\ length (value (bias (h2o self))) = output_size self
  /\ rnn_input_size (gru self) = input_size self
  /\ rnn_hidden_size (gru self) = hidden_size self
  /\ rnn_num_layers (gru self) = num_layers self
  /\ length (cells (gru self)) = num_layers self
  /\ wf_cells (input_size self) (hidden_size self) (cells (gru self)).

(** The mode invariant of the spec's data model: every dependent
    component agrees with the mode flag. *)
Definition mode_consistent (self : GRU F) : Prop :=
  Forall (fun g => g = training self) (parameters self)
  /\ rnn_training (gru self) = training self.

(** The layer after [switch_mode]. *)
Definition switched (self : GRU F) : GRU F :=
  let b := negb (training self) in
  MkGRU (hp self) b (onehot_buffer self)
    (Linear_set_grad b (h2o self))
    (nnGRU_train b (nnGRU_set_grad b (gru self))).

Definition with_gen (w : world F R) (g : R) : world F R :=
  World (heap w) g (junk w) (stdout w) (cuda_available w).

(** The value of a coin as a tensor entry. *)
Definition coin (c : bool) : F := if c then fone else fzero.

(** [n] successive coins of success probability [p]: the outcomes and
    the generator afterwards. *)
Fixpoint draw_coins (p : F) (n : nat) (g : R) : list bool * R :=
  match n with
  | 0 => ([], g)
  | S n' =>
      let '(c, g1) := bernoulli1 p g in
      let '(cs, g2) := draw_coins p n' g1 in
      (c :: cs, g2)
  end.

(** Row-wise masking as the spec words it: every feature of row [i] is
    multiplied by the value of coin [i]. *)
Definition mask_rows (coins : list bool) (embedded : list (list F))
  : list (list F) :=
  zip_with (fun c row => map (fun x => fmul x (coin c)) row) coins embedded.

(** What [forward] does after the input dropout (lines 64-80). *)
Definition after_dropout (self : GRU F) (embedded : list (list F))
    (target : list Z) (hidden : list (list (list F)))
  : M F R (list (list F) * list (list (list F))) :=
  let* (logit, hidden) := score self embedded hidden in
  let* logit := sample self logit target in
  ret (logit, hidden).

(** A call that neither reads nor changes the world: its result is the
    same in every world and the world stays as it was. *)
Definition pure_call {A} (c : M F R A) : Prop :=
  forall w w0, c w = (fst (c w0), w).

(** The recurrent stack draws no coins: its dropout is off, or there is
    no layer boundary to put it on. *)
Definition stack_quiet (m : nnGRU F) : Prop :=
  rnn_training m && fltb fzero (rnn_dropout m) = false
  \/ length (cells m) <= 1.

(** A call that leaves the tensors of the store, the printed lines and
    the stale memory alone, whatever it returns; only the generator may
    move. *)
Definition keeps_store {A} (c : M F R A) : Prop :=
  forall w, heap (snd (c w)) = heap w
            /\ stdout (snd (c w)) = stdout w
            /\ junk (snd (c w)) = junk w.

(** A call that does not change whether there is an accelerator. *)
Definition keeps_device {A} (c : M F R A) : Prop :=
  forall w, cuda_available (snd (c w)) = cuda_available w.

(** A call that keeps a property of the world, whatever it returns. *)
Definition preserves {A} (P : world F R -> Prop) (c : M F R A) : Prop :=
  forall w, P w -> P (snd (c w)).

(** The tensor at [l] is a (B, C) tensor, on the device when [dev]. *)
Definition holds_buffer (l : loc) (B C : nat) (dev : bool) (w : world F R)
  : Prop :=
  exists s, heap w !! l = Some s /\ shape2 B C (rows s)
            /\ (dev = true -> placed s = Cuda).

(** The values of the four parameters of a cell. *)
Definition GRUCell_values (c : GRUCell F)
  : list (list F) * list (list F) * list F * list F :=
  (value (weight_ih c), value (weight_hh c),
   value (bias_ih c), value (bias_hh c)).

End Vocabulary.

(** ** A small executable instance

    Fixed-point scalars with one fractional bit: the integer [z] stands
    for the number z/2, so that one is [2] and a dropout probability of
    one half is [1].  The gate is a step function (with value 1/2 at 0) and
    the bounded non-linearity is the sign function.  The generator is a
    tape of coin outcomes.  The examples below run the layer on it.
    Nothing is assumed of its arithmetic. *)

Module Fixed.

#[export] Instance half_scalar : Scalar Z := {|
  fzero := 0%Z;
  fone := 2%Z;
  fadd := Z.add;
  fsub := Z.sub;
  fmul := fun x y => (x * y / 2)%Z;
  fdiv := fun x y => (2 * x / y)%Z;
  fsigmoid := fun x => match x with Z0 => 1%Z | Zpos _ => 2%Z | Zneg _ => 0%Z end;
  ftanh := fun x => (2 * Z.sgn x)%Z;
  fltb := Z.ltb;
  fleb := Z.leb
|}.

(** A coin of probability zero is tails and one of probability one is
    heads; any other coin is the head of the tape.  Every coin uses up one
    entry of the tape, and an empty tape keeps giving heads.  An initial
    weight is plus or minus one, by the next entry. *)
#[export] Instance tape_random : Random Z (list bool) := {|
  bernoulli1 := fun p tape =>
    let outcome (c : bool) :=
      if (p <=? 0)%Z then false else if (2 <=? p)%Z then true else c in
    match tape with
    | [] => (outcome true, [])
    | c :: tape' => (outcome c, tape')
    end;
  uniform1 := fun tape =>
    match tape with
    | [] => (2%Z, [])
    | c :: tape' => ((if c then 2 else -2)%Z, tape')
    end
|}.

(** An empty store, stale memory full of sevens, nothing printed yet, on
    a machine with an accelerator. *)
Definition world0 (tape : list bool) : world Z (list bool) :=
  World [] tape (fun _ _ => 7%Z) [] true.

(** The layer of the spec's end-to-end example (B=2, C=5, H=3, L=1,
    input_size=4), without dropout, and the world it is built in. *)
Definition example_layer (use_cuda training : bool)
  : (error + GRU Z) * world Z (list bool) :=
  GRU_init 4 3 5 1 0%Z 0%Z 2 use_cuda training (world0 []).

Fixpoint alternating (n : nat) : list bool :=
  match n with
  | 0 => []
  | S n' => true :: false :: alternating n'
  end.

(** The same dimensions with two stacked layers and the default hidden
    dropout of one half; the initial weights alternate between plus and
    minus one. *)
Definition stacked_layer (training : bool)
  : (error + GRU Z) * world Z (list bool) :=
  GRU_init 4 3 5 2 1%Z 0%Z 2 false training (world0 (alternating 90)).

(** A batch of two sessions, a zero state for two layers, and twelve
    coins: six heads, then six tails. *)
Definition example_batch : list (list Z) :=
  [[2; 0; 0; 0]; [0; 2; 0; 0]]%Z.

Definition example_hidden : list (list (list Z)) :=
  [[[0; 0; 0]; [0; 0; 0]]; [[0; 0; 0]; [0; 0; 0]]]%Z.

Definition example_coins : list bool :=
  [true; true; true; true; true; true;
   false; false; false; false; false; false].

(** A layer without anything, for the impossible case that a constructor
    raised. *)
Definition empty_layer : GRU Z :=
  MkGRU (Hyper 0 0 0 0 0%Z 0%Z 0 false) false 0
    (MkLinear 0 0 (MkParam [] true) (MkParam [] true))
    (MkRNN 0 0 0 0%Z true []).

Definition built_layer (built : (error + GRU Z) * world Z (list bool))
  : GRU Z :=
  match built with
  | (inr self, _) => self
  | (inl _, _) => empty_layer
  end.

Definition built_world (built : (error + GRU Z) * world Z (list bool))
  : world Z (list bool) :=
  snd built.

(** The example layer on the device, in inference mode, and a CPU one in
    training mode, as the constructor returns them. *)
Definition layer_cuda : GRU Z :=
  Eval vm_compute in built_layer (example_layer true false).

Definition layer_train : GRU Z :=
  Eval vm_compute in built_layer (example_layer false true).

Definition layer_eval : GRU Z :=
  Eval vm_compute in built_layer (example_layer false false).

Definition layer_stacked_eval : GRU Z :=
  Eval vm_compute in built_layer (stacked_layer false).

(** A caller's [layer.h2o.weight.requires_grad = False]. *)
Definition freeze_h2o_weight (self : GRU Z) : GRU Z :=
  MkGRU (hp self) (training self) (onehot_buffer self)
    (MkLinear (in_features (h2o self)) (out_features (h2o self))
       (set_grad false (weight (h2o self))) (bias (h2o self)))
    (gru self).

Definition world_cuda : world Z (list bool) :=
  built_world (example_layer true false).

Definition world_train : world Z (list bool) :=
  built_world (example_layer false true).

(** The example layer with an input dropout of one half. *)
Definition layer_drop : GRU Z :=
  Eval vm_compute in
    built_layer (GRU_init 4 3 5 1 0%Z 1%Z 2 false true (world0 [])).

Definition world_stacked : world Z (list bool) :=
  with_gen (built_world (stacked_layer false)) example_coins.

(** The zero state of the one-layer example. *)
Definition example_hidden1 : list (list (list Z)) :=
  [[[0; 0; 0]; [0; 0; 0]]]%Z.

End Fixed.

(** ** Binary floating-point scalars

    The entries of a [torch.FloatTensor] are IEEE floats.  This instance
    takes the machine's binary64 numbers with their own sum, difference,
    product, quotient and comparisons; an infinity and a NaN behave as in
    single precision.  The two non-linearities, which no example below
    reaches, are rational stand-ins with the right bounds. *)

Module IEEE.

#[export] Instance float_scalar : Scalar float := {|
  fzero := PrimFloat.zero;
  fone := PrimFloat.one;
  fadd := PrimFloat.add;
  fsub := PrimFloat.sub;
  fmul := PrimFloat.mul;
  fdiv := PrimFloat.div;
  fsigmoid := fun x =>
    PrimFloat.div
      (PrimFloat.add PrimFloat.one
         (PrimFloat.div x (PrimFloat.add PrimFloat.one (PrimFloat.abs x))))
      PrimFloat.two;
  ftanh := fun x =>
    PrimFloat.div x (PrimFloat.add PrimFloat.one (PrimFloat.abs x));
  fltb := PrimFloat.ltb;
  fleb := PrimFloat.leb
|}.

(** Coins from a tape, as in the fixed-point instance; an initial weight
    is plus or minus one half. *)
#[export] Instance float_tape : Random float (list bool) := {|
  bernoulli1 := fun p tape =>
    let outcome (c : bool) :=
      if PrimFloat.leb p PrimFloat.zero then false
      else if PrimFloat.leb PrimFloat.one p then true else c in
    match tape with
    | [] => (outcome true, [])
    | c :: tape' => (outcome c, tape')
    end;
  uniform1 := fun tape =>
    let half := PrimFloat.div PrimFloat.one PrimFloat.two in
    match tape with
    | [] => (half, [])
    | c :: tape' => (if c then half else PrimFloat.opp half, tape')
    end
|}.

Definition one_half : float := PrimFloat.div PrimFloat.one PrimFloat.two.

(** A layer with input dropout one half, as the constructor builds it in
    training mode (input_size=2, hidden_size=1, output_size=2, one layer,
    no hidden dropout, batch_size=1, on the CPU). *)
Definition float_layer : (error + GRU float) * world float (list bool) :=
  GRU_init 2 1 2 1 PrimFloat.zero one_half 1 false true
    (World [] [] (fun _ _ => PrimFloat.zero) [] false).

(** One session whose first feature is infinite. *)
Definition infinite_batch : list (list float) :=
  [[PrimFloat.infinity; PrimFloat.one]].

End IEEE.

(** * Properties *)

(** ** The store *)

Section StoreFacts.
Context {F R : Type} `{Scalar F} `{Random F R}.

Lemma with_heap_twice (w : world F R) h1 h2 :
  with_heap (with_heap w h1) h2 = with_heap w h2.
Proof. reflexivity. Qed.

Lemma with_heap_same (w : world F R) : with_heap w (heap w) = w.
Proof. by destruct w. Qed.

Lemma bind_ok {A B} (c : M F R A) (k : A -> M F R B) w a w' :
  c w = (inr a, w') -> bind c k w = k a w'.
Proof. unfold bind. by intros ->. Qed.

Lemma bind_fail {A B} (c : M F R A) (k : A -> M F R B) w e w' :
  c w = (inl e, w') -> bind c k w = (inl e, w').
Proof. unfold bind. by intros ->. Qed.

Lemma deref_ok (w : world F R) l s :
  heap w !! l = Some s -> deref l w = (inr s, w).
Proof. unfold deref, bind, get_heap. by intros ->. Qed.

Lemma assign_ok (w : world F R) l s s' :
  heap w !! l = Some s ->
  assign l s' w = (inr tt, with_heap w (<[l := s']> (heap w))).
Proof.
  intros Hl. unfold assign, bind, get_heap.
  apply lookup_lt_Some in Hl. by rewrite decide_True.
Qed.

Lemma zero__ok (w : world F R) l s :
  heap w !! l = Some s ->
  zero_ l w =
    (inr tt,
     with_heap w (<[l := Storage (placed s)
                           (map (map (fun _ => fzero)) (rows s))]> (heap w))).
Proof.
  intros Hl. unfold zero_.
  rewrite (bind_ok _ _ _ _ _ (deref_ok _ _ _ Hl)).
  by apply assign_ok with s.
Qed.

Lemma cuda_on_device (w : world F R) l s :
  heap w !! l = Some s -> placed s = Cuda -> cuda l w = (inr l, w).
Proof.
  intros Hl Hd. unfold cuda.
  rewrite (bind_ok _ _ _ _ _ (deref_ok _ _ _ Hl)). by rewrite Hd.
Qed.

Lemma scatter_elem_ok (w : world F R) l s i row k src :
  heap w !! l = Some s -> rows s !! i = Some row ->
  (0 <= k < Z.of_nat (length row))%Z ->
  scatter_elem l i k src w =
    (inr tt,
     with_heap w
       (<[l := Storage (placed s)
                 (<[i := <[Z.to_nat k := src]> row]> (rows s))]> (heap w))).
Proof.
  intros Hl Hi Hk. unfold scatter_elem.
  rewrite (bind_ok _ _ _ _ _ (deref_ok _ _ _ Hl)), Hi.
  replace ((0 <=? k)%Z && (k <? Z.of_nat (length row))%Z) with true
    by (symmetry; apply andb_true_iff; lia).
  by apply assign_ok with s.
Qed.

Lemma scatter_elem_range (w : world F R) l s i row k src :
  heap w !! l = Some s -> rows s !! i = Some row ->
  ~ (0 <= k < Z.of_nat (length row))%Z ->
  scatter_elem l i k src w = (inl RangeError, w).
Proof.
  intros Hl Hi Hk. unfold scatter_elem.
  rewrite (bind_ok _ _ _ _ _ (deref_ok _ _ _ Hl)), Hi.
  replace ((0 <=? k)%Z && (k <? Z.of_nat (length row))%Z) with false; [done|].
  symmetry. apply andb_false_iff. lia.
Qed.

End StoreFacts.

(** ** The scatter loop *)

Section ScatterFacts.
Context {F R : Type} `{Scalar F} `{Random F R}.

Lemma storage_eta (s : storage F) : Storage (placed s) (rows s) = s.
Proof. by destruct s. Qed.

(** Scattering a column of in-range indices from row [i] on succeeds and
    rewrites exactly the rows [i, i + length input). *)
Lemma scatter_loop_ok l src (input : list Z) :
  forall i (w : world F R) s,
    heap w !! l = Some s ->
    (forall q k, input !! q = Some k ->
       exists row, rows s !! (i + q) = Some row
                   /\ (0 <= k < Z.of_nat (length row))%Z) ->
    exists t',
      scatter_loop l i (view_column input) src w =
        (inr tt, with_heap w (<[l := Storage (placed s) t']> (heap w)))
      /\ length t' = length (rows s)
      /\ (forall r, r < i -> t' !! r = rows s !! r)
      /\ (forall q k, input !! q = Some k ->
            t' !! (i + q) =
              (fun row => <[Z.to_nat k := src]> row) <$> rows s !! (i + q))
      /\ (forall r, i + length input <= r -> t' !! r = rows s !! r).
Proof.
  induction input as [|k input IH]; intros i w s Hl Hin.
  - exists (rows s). simpl. unfold ret.
    rewrite storage_eta, list_insert_id, with_heap_same by done.
    repeat split; done.
  - destruct (Hin 0 k eq_refl) as (row & Hrow & Hk).
    rewrite Nat.add_0_r in Hrow.
    pose proof (lookup_lt_Some _ _ _ Hl) as Hlt.
    pose proof (lookup_lt_Some _ _ _ Hrow) as Hlti.
    set (s1 := Storage (placed s) (<[i := <[Z.to_nat k := src]> row]> (rows s))).
    set (w1 := with_heap w (<[l := s1]> (heap w))).
    assert (Hl1 : heap w1 !! l = Some s1)
      by (simpl; by rewrite list_lookup_insert_eq).
    destruct (IH (S i) w1 s1 Hl1) as (t' & Hrun & Hlen & Hlow & Hmid & Hhigh).
    { intros q k' Hq. destruct (Hin (S q) k' Hq) as (row' & Hrow' & Hk').
      exists row'. split; [|done]. simpl.
      rewrite list_lookup_insert_ne by lia.
      by replace (S (i + q)) with (i + S q) by lia. }
    exists t'. split; [|split; [|split; [|split]]].
    + simpl. unfold bind at 1. unfold bind at 1.
      rewrite (scatter_elem_ok w l s i row k src Hl Hrow Hk).
      unfold ret at 1. fold s1. fold w1. rewrite Hrun.
      unfold w1. rewrite with_heap_twice. simpl.
      by rewrite list_insert_insert_eq.
    + rewrite Hlen. simpl. by rewrite length_insert.
    + intros r Hr. rewrite Hlow by lia. simpl.
      by rewrite list_lookup_insert_ne by lia.
    + intros q k' Hq. destruct q as [|q]; simpl in Hq.
      * injection Hq as <-. rewrite Nat.add_0_r, Hlow by lia. simpl.
        by rewrite list_lookup_insert_eq, Hrow.
      * replace (i + S q) with (S i + q) by lia.
        rewrite (Hmid q k' Hq). simpl.
        by rewrite list_lookup_insert_ne by lia.
    + intros r Hr. simpl in Hr. rewrite Hhigh by lia. simpl.
      by rewrite list_lookup_insert_ne by lia.
Qed.

(** The first out-of-range index stops the loop with a range fault. *)
Lemma scatter_loop_range l src (input : list Z) :
  forall i (w : world F R) s C,
    heap w !! l = Some s ->
    i + length input <= length (rows s) ->
    Forall (fun r => length r = C) (rows s) ->
    Exists (fun k => ~ (0 <= k < Z.of_nat C)%Z) input ->
    exists w', scatter_loop l i (view_column input) src w
               = (inl RangeError, w').
Proof.
  induction input as [|k input IH]; intros i w s C Hl Hlen Hw Hbad.
  - by apply Exists_nil in Hbad.
  - simpl in Hlen.
    destruct (lookup_lt_is_Some_2 (rows s) i) as [row Hrow]; [lia|].
    assert (Hrl : length row = C).
    { rewrite Forall_lookup in Hw. by apply (Hw i). }
    pose proof (lookup_lt_Some _ _ _ Hl) as Hlt.
    simpl. unfold bind at 1. unfold bind at 1.
    destruct (decide (0 <= k < Z.of_nat C)%Z) as [Hk|Hk].
    + rewrite (scatter_elem_ok w l s i row k src Hl Hrow) by lia.
      unfold ret at 1.
      apply Exists_cons in Hbad as [Hbad|Hbad]; [done|].
      eapply (IH (S i) _ _ C); [| | |done].
      * simpl. by rewrite list_lookup_insert_eq.
      * simpl. rewrite length_insert. lia.
      * simpl. apply Forall_insert; [done|]. by rewrite length_insert.
    + rewrite (scatter_elem_range w l s i row k src Hl Hrow) by lia.
      by eexists.
Qed.

End ScatterFacts.

(** ** [emb] and the scratch buffer *)

Section EmbFacts.
Context {F R : Type} `{Scalar F} `{Random F R}.

Lemma map_const_replicate {A} (x : F) (l : list A) :
  map (fun _ => x) l = replicate (length l) x.
Proof. induction l as [|a l IH]; simpl; by rewrite ?IH. Qed.

Lemma length_view_column (input : list Z) :
  length (view_column input) = length input.
Proof. unfold view_column. by rewrite length_map. Qed.

Lemma one_hot_lookup C (index : list Z) i k :
  index !! i = Some k ->
  one_hot (F := F) C index !! i
  = Some (<[Z.to_nat k := fone]> (replicate C fzero)).
Proof. intros Hi. unfold one_hot. by rewrite list_lookup_fmap, Hi. Qed.

Lemma one_hot_shape B C (index : list Z) :
  length index = B -> shape2 (F := F) B C (one_hot C index).
Proof.
  intros HB. unfold one_hot. split; [by rewrite length_map|].
  apply Forall_fmap, Forall_forall. intros k _. simpl.
  by rewrite length_insert, length_replicate.
Qed.

(** The entries of a one-hot row: 1 at the index, 0 elsewhere. *)
Lemma one_hot_entry C (index : list Z) i k j :
  index !! i = Some k -> (0 <= k < Z.of_nat C)%Z -> j < C ->
  entry (one_hot (F := F) C index) i j
  = Some (if decide (j = Z.to_nat k) then fone else fzero).
Proof.
  intros Hi Hk Hj. unfold entry. rewrite (one_hot_lookup _ _ _ _ Hi).
  destruct (decide (j = Z.to_nat k)) as [->|Hne].
  - rewrite list_lookup_insert_eq; [done|]. rewrite length_replicate. lia.
  - rewrite list_lookup_insert_ne by done. by apply lookup_replicate_2.
Qed.

(** On a ready buffer and a valid index vector, [emb] returns the handle
    of the buffer itself, and the buffer then holds the one-hot encoding
    of the input whatever it held before. *)
Lemma emb_ok (self : GRU F) (w : world F R) (input : list Z) volatile s :
  heap w !! onehot_buffer self = Some s ->
  shape2 (batch_size self) (output_size self) (rows s) ->
  (use_cuda self = true -> placed s = Cuda) ->
  valid_index (batch_size self) (output_size self) input ->
  emb self input volatile w =
    (inr (onehot_buffer self),
     with_heap w
       (<[onehot_buffer self :=
            Storage (placed s) (one_hot (output_size self) input)]> (heap w))).
Proof.
  intros Hl [HB HC] Hdev [Hlen Hrange].
  set (l := onehot_buffer self) in *.
  pose proof (lookup_lt_Some _ _ _ Hl) as Hlt.
  set (s1 := Storage (placed s) (map (map (fun _ => fzero)) (rows s))).
  set (w1 := with_heap w (<[l := s1]> (heap w))).
  assert (Hl1 : heap w1 !! l = Some s1)
    by (simpl; by rewrite list_lookup_insert_eq).
  destruct (scatter_loop_ok l fone input 0 w1 s1 Hl1)
    as (t' & Hrun & Hlen' & _ & Hmid & Hhigh).
  { intros q k Hq. simpl.
    destruct (lookup_lt_is_Some_2 (rows s) q) as [row Hrow].
    { apply lookup_lt_Some in Hq. lia. }
    exists (map (fun _ => fzero) row). split.
    - by rewrite list_lookup_fmap, Hrow.
    - rewrite length_map. rewrite Forall_lookup in HC.
      rewrite Forall_lookup in Hrange.
      rewrite (HC q row Hrow). by apply (Hrange q). }
  assert (Ht' : t' = one_hot (output_size self) input).
  { apply list_eq. intros r.
    destruct (input !! r) as [k|] eqn:Hr.
    - rewrite (one_hot_lookup _ _ _ _ Hr).
      specialize (Hmid r k Hr). simpl in Hmid. rewrite Hmid.
      destruct (lookup_lt_is_Some_2 (rows s) r) as [row Hrow].
      { apply lookup_lt_Some in Hr. lia. }
      rewrite list_lookup_fmap, Hrow. simpl.
      rewrite Forall_lookup in HC.
      by rewrite map_const_replicate, (HC r row Hrow).
    - apply lookup_ge_None in Hr. rewrite Hhigh by (simpl; lia).
      simpl. rewrite list_lookup_fmap.
      rewrite (proj2 (lookup_ge_None (rows s) r)) by lia.
      symmetry. apply lookup_ge_None. unfold one_hot.
      rewrite length_map. lia. }
  subst t'.
  unfold emb. fold l.
  rewrite (bind_ok _ _ _ _ _ (zero__ok w l s Hl)). fold s1. fold w1.
  assert (Hsc : scatter_ l (view_column input) fone w1 =
                (inr tt, with_heap w
                   (<[l := Storage (placed s)
                             (one_hot (output_size self) input)]> (heap w)))).
  { unfold scatter_. rewrite (bind_ok _ _ _ _ _ (deref_ok _ _ _ Hl1)).
    rewrite decide_True.
    - rewrite Hrun. unfold w1. rewrite with_heap_twice. simpl.
      by rewrite list_insert_insert_eq.
    - rewrite length_view_column. simpl. rewrite !length_map. lia. }
  rewrite (bind_ok _ _ _ _ _ Hsc).
  destruct (use_cuda self) eqn:Hcu; [|done].
  eapply cuda_on_device.
  - simpl. by rewrite list_lookup_insert_eq.
  - simpl. by apply Hdev.
Qed.

(** [emb] keeps the buffer ready for the next call. *)
Lemma emb_keeps_ready (self : GRU F) (w w' : world F R) input volatile l :
  buffer_ready self w ->
  valid_index (batch_size self) (output_size self) input ->
  emb self input volatile w = (inr l, w') ->
  buffer_ready self w'.
Proof.
  intros (s & Hl & Hsh & Hdev) Hin Hrun.
  rewrite (emb_ok self w input volatile s Hl Hsh Hdev Hin) in Hrun.
  injection Hrun as _ <-.
  exists (Storage (placed s) (one_hot (output_size self) input)).
  split; [|split].
  - simpl. rewrite list_lookup_insert_eq; [done|].
    by apply lookup_lt_Some in Hl.
  - simpl. apply one_hot_shape. by destruct Hin.
  - done.
Qed.

End EmbFacts.

(** ** The constructor *)

Section InitFacts.
Context {F R : Type} `{Scalar F} `{Random F R}.

Lemma draw_uniform_ok (w : world F R) :
  exists x w', draw_uniform w = (inr x, w') /\ heap w' = heap w.
Proof.
  unfold draw_uniform. destruct (uniform1 (gen w)) as [x g].
  by eexists _, _.
Qed.

Lemma draw_vector_ok n : forall w : world F R,
  exists v w', draw_vector n w = (inr v, w')
               /\ heap w' = heap w /\ length v = n.
Proof.
  induction n as [|n IH]; intros w; simpl.
  - by eexists _, _.
  - destruct (draw_uniform_ok w) as (x & w1 & Hx & Hh1).
    destruct (IH w1) as (v & w2 & Hv & Hh2 & Hlen).
    exists (x :: v), w2.
    rewrite (bind_ok _ _ _ _ _ Hx), (bind_ok _ _ _ _ _ Hv).
    repeat split; simpl; congruence.
Qed.

Lemma draw_matrix_ok n m : forall w : world F R,
  exists t w', draw_matrix n m w = (inr t, w')
               /\ heap w' = heap w /\ shape2 n m t.
Proof.
  induction n as [|n IH]; intros w; simpl.
  - eexists _, _. repeat split. constructor.
  - destruct (draw_vector_ok m w) as (r & w1 & Hr & Hh1 & Hlen).
    destruct (IH w1) as (t & w2 & Ht & Hh2 & Htl & Htw).
    exists (r :: t), w2.
    rewrite (bind_ok _ _ _ _ _ Hr), (bind_ok _ _ _ _ _ Ht).
    repeat split; simpl; try congruence. by constructor.
Qed.

Lemma Linear_init_ok n_in n_out (w : world F R) :
  exists m w', Linear_init n_in n_out w = (inr m, w')
    /\ heap w' = heap w
    /\ in_features m = n_in /\ out_features m = n_out
    /\ shape2 n_out n_in (value (weight m))
    /\ length (value (bias m)) = n_out
    /\ Linear_flags m = [true; true].
Proof.
  unfold Linear_init.
  destruct (draw_matrix_ok n_out n_in w) as (t & w1 & Ht & Hh1 & Hsh).
  destruct (draw_vector_ok n_out w1) as (b & w2 & Hb & Hh2 & Hlen).
  rewrite (bind_ok _ _ _ _ _ Ht), (bind_ok _ _ _ _ _ Hb).
  eexists _, _. split; [done|]. simpl. split_and!; try done. congruence.
Qed.

Lemma GRUCell_init_ok width hidden (w : world F R) :
  exists c w', GRUCell_init width hidden w = (inr c, w')
    /\ heap w' = heap w /\ wf_cell width hidden c
    /\ GRUCell_flags c = [true; true; true; true].
Proof.
  unfold GRUCell_init.
  destruct (draw_matrix_ok (3 * hidden) width w) as (a & w1 & Ha & Hh1 & Hsa).
  destruct (draw_matrix_ok (3 * hidden) hidden w1)
    as (b & w2 & Hb & Hh2 & Hsb).
  destruct (draw_vector_ok (3 * hidden) w2) as (c & w3 & Hc & Hh3 & Hlc).
  destruct (draw_vector_ok (3 * hidden) w3) as (d & w4 & Hd & Hh4 & Hld).
  rewrite (bind_ok _ _ _ _ _ Ha), (bind_ok _ _ _ _ _ Hb),
    (bind_ok _ _ _ _ _ Hc), (bind_ok _ _ _ _ _ Hd).
  eexists _, _. split; [done|]. split; [congruence|]. by split_and!.
Qed.

Lemma GRUCells_init_ok hidden layers : forall width (w : world F R),
  exists cs w', GRUCells_init width hidden layers w = (inr cs, w')
    /\ heap w' = heap w /\ length cs = layers /\ wf_cells width hidden cs
    /\ Forall (fun g => g = true) (concat (map GRUCell_flags cs)).
Proof.
  induction layers as [|n IH]; intros width w; simpl.
  - eexists _, _. repeat split. constructor.
  - destruct (GRUCell_init_ok width hidden w) as (c & w1 & Hc & Hh1 & Hwf & Hfl).
    destruct (IH hidden w1) as (cs & w2 & Hcs & Hh2 & Hlen & Hwfs & Hfls).
    rewrite (bind_ok _ _ _ _ _ Hc), (bind_ok _ _ _ _ _ Hcs).
    exists (c :: cs), w2. split; [done|]. split; [congruence|].
    split; [simpl; congruence|]. split; [done|].
    cbn [map concat]. rewrite Hfl. by repeat constructor.
Qed.

Lemma keeps_device_ret {A} (a : A) :
  keeps_device (ret (F := F) (R := R) a).
Proof. by intros w. Qed.

Lemma keeps_device_bind {A B} (c : M F R A) (k : A -> M F R B) :
  keeps_device c -> (forall a, keeps_device (k a)) ->
  keeps_device (bind c k).
Proof.
  intros Hc Hk w. unfold bind. specialize (Hc w).
  destruct (c w) as [[e|a] w1]; simpl in *; [done|].
  by rewrite (Hk a w1).
Qed.

Lemma keeps_device_draw_vector n :
  keeps_device (F := F) (R := R) (draw_vector n).
Proof.
  induction n as [|n IH]; simpl; [apply keeps_device_ret|].
  apply keeps_device_bind.
  - intros w. unfold draw_uniform. by destruct (uniform1 (gen w)).
  - intros x. apply keeps_device_bind; [apply IH|].
    intros xs. apply keeps_device_ret.
Qed.

Lemma keeps_device_draw_matrix n m :
  keeps_device (F := F) (R := R) (draw_matrix n m).
Proof.
  induction n as [|n IH]; simpl; [apply keeps_device_ret|].
  apply keeps_device_bind; [apply keeps_device_draw_vector|].
  intros r. apply keeps_device_bind; [apply IH|].
  intros rs. apply keeps_device_ret.
Qed.

Lemma keeps_device_Linear_init n_in n_out :
  keeps_device (F := F) (R := R) (Linear_init n_in n_out).
Proof.
  unfold Linear_init.
  apply keeps_device_bind; [apply keeps_device_draw_matrix|]. intros t.
  apply keeps_device_bind; [apply keeps_device_draw_vector|]. intros b.
  apply keeps_device_ret.
Qed.

Lemma keeps_device_GRUCells_init hidden layers :
  forall width,
    keeps_device (F := F) (R := R) (GRUCells_init width hidden layers).
Proof.
  induction layers as [|n IH]; intros width; simpl;
    [apply keeps_device_ret|].
  apply keeps_device_bind.
  - unfold GRUCell_init.
    apply keeps_device_bind; [apply keeps_device_draw_matrix|]. intros a.
    apply keeps_device_bind; [apply keeps_device_draw_matrix|]. intros b.
    apply keeps_device_bind; [apply keeps_device_draw_vector|]. intros c.
    apply keeps_device_bind; [apply keeps_device_draw_vector|]. intros d.
    apply keeps_device_ret.
  - intros c. apply keeps_device_bind; [apply IH|].
    intros cs. apply keeps_device_ret.
Qed.

Lemma require_device_ok (w : world F R) :
  cuda_available w = true -> require_device w = (inr tt, w).
Proof. unfold require_device. by intros ->. Qed.

Lemma init_emb_ok (self : hyper F) (w : world F R) :
  (use_cuda self = true -> cuda_available w = true) ->
  exists l s w', init_emb self w = (inr l, w')
    /\ heap w' !! l = Some s
    /\ shape2 (batch_size self) (output_size self) (rows s)
    /\ (use_cuda self = true -> placed s = Cuda)
    /\ cuda_available w' = cuda_available w.
Proof.
  intros Hdevice.
  set (t := map (fun i => map (junk w i) (seq 0 (output_size self)))
              (seq 0 (batch_size self))).
  assert (Hsh : shape2 (batch_size self) (output_size self) t).
  { unfold t. split; [by rewrite length_map, length_seq|].
    apply Forall_fmap, Forall_forall. intros i _. simpl.
    by rewrite length_map, length_seq. }
  assert (Hft : FloatTensor (batch_size self) (output_size self) w
                = (inr (length (heap w)),
                   with_heap w (heap w ++ [Storage Cpu t]))) by done.
  set (w1 := with_heap w (heap w ++ [Storage Cpu t])) in *.
  assert (Hl1 : heap w1 !! length (heap w) = Some (Storage Cpu t)).
  { simpl. by rewrite lookup_app_r, Nat.sub_diag by lia. }
  unfold init_emb. rewrite (bind_ok _ _ _ _ _ Hft).
  destruct (use_cuda self) eqn:Hcu.
  - exists (length (heap w1)), (Storage Cuda t),
      (with_heap w1 (heap w1 ++ [Storage Cuda t])).
    split; [|split; [|done]].
    + unfold cuda. rewrite (bind_ok _ _ _ _ _ (deref_ok _ _ _ Hl1)).
      cbn [placed].
      by rewrite (bind_ok _ _ _ _ _ (require_device_ok w1 (Hdevice eq_refl))).
    + cbn [heap with_heap]. by rewrite lookup_app_r, Nat.sub_diag by lia.
  - by exists (length (heap w)), (Storage Cpu t), w1.
Qed.

(** On arguments [nn.GRU] accepts, and with the accelerator there when
    it is asked for, [__init__] succeeds.  It leaves the scratch buffer
    ready, the parameters shaped, every parameter tracked by autograd and
    the recurrent stack in training mode, whatever [training] it was
    given. *)
Lemma GRU_init_ok input_size hidden_size output_size num_layers
    (dropout_hidden dropout_input : F) batch_size use_cuda mode
    (w : world F R) :
  fleb fzero dropout_hidden = true -> fleb dropout_hidden fone = true ->
  1 <= hidden_size -> 1 <= num_layers ->
  (use_cuda = true -> cuda_available w = true) ->
  exists self w',
    GRU_init input_size hidden_size output_size num_layers dropout_hidden
      dropout_input batch_size use_cuda mode w = (inr self, w')
    /\ hp self = Hyper input_size hidden_size output_size num_layers
                   dropout_input dropout_hidden batch_size use_cuda
    /\ training self = mode
    /\ buffer_ready self w'
    /\ wf_layer self
    /\ Forall (fun g => g = true) (parameters self)
    /\ rnn_training (gru self) = true
    /\ rnn_dropout (gru self) = dropout_hidden.
Proof.
  intros Hlo Hhi HH HL Hdevice.
  unfold GRU_init.
  set (h := Hyper _ _ _ _ _ _ _ _).
  destruct (init_emb_ok h w Hdevice)
    as (l & s & w1 & Hl & Hs & Hsh & Hdev & Hd1).
  destruct (Linear_init_ok hidden_size output_size w1)
    as (m & w2 & Hm & Hh2 & Hin & Hout & Hw & Hb & Hfl).
  pose proof (keeps_device_Linear_init hidden_size output_size w1) as Hd2.
  rewrite Hm in Hd2. simpl in Hd2.
  unfold nnGRU_init. rewrite Hlo, Hhi. cbn [andb negb].
  replace ((hidden_size =? 0) || (num_layers =? 0)) with false
    by (destruct hidden_size, num_layers; simpl; lia).
  destruct (GRUCells_init_ok hidden_size num_layers input_size w2)
    as (cs & w3 & Hcs & Hh3 & Hlen & Hwf & Hfls).
  pose proof (keeps_device_GRUCells_init hidden_size num_layers input_size
                w2) as Hd3.
  rewrite Hcs in Hd3. simpl in Hd3.
  assert (Hreq : (if use_cuda then require_device else ret tt) w3
                 = (inr tt, w3)).
  { destruct use_cuda; [|done]. apply require_device_ok.
    rewrite Hd3, Hd2, Hd1. by apply Hdevice. }
  rewrite (bind_ok _ _ _ _ _ Hl), (bind_ok _ _ _ _ _ Hm),
    (bind_ok _ _ _ _ _ (bind_ok _ _ _ _ _ Hcs)),
    (bind_ok _ _ _ _ _ Hreq).
  eexists _, _. split; [reflexivity|].
  split; [done|]. split; [done|]. split; [|split; [|split; [|done]]].
  - exists s. simpl. by rewrite Hh3, Hh2.
  - unfold wf_layer. simpl. by split_and!.
  - unfold parameters. cbn [h2o gru cells]. rewrite Hfl.
    by repeat constructor.
Qed.

End InitFacts.

(** ** Claims about [emb] *)

Section EmbClaims.
Context {F R : Type} `{Scalar F} `{Random F R}.

Lemma one_hot_is_one_hot B C (index : list Z) :
  valid_index B C index -> is_one_hot B C index (one_hot C index).
Proof.
  intros [Hlen Hrange]. split; [by apply one_hot_shape|].
  intros i Hi.
  destruct (lookup_lt_is_Some_2 index i) as [k Hk]; [lia|].
  rewrite Forall_lookup in Hrange. pose proof (Hrange i k Hk) as Hr.
  exists k. split; [done|]. split.
  - rewrite (one_hot_entry C index i k (Z.to_nat k) Hk Hr) by lia.
    by rewrite decide_True.
  - intros j Hj Hne. rewrite (one_hot_entry C index i k j Hk Hr Hj).
    by rewrite decide_False.
Qed.

Lemma one_hot_inj B C (i1 i2 : list Z) :
  fone <> (fzero : F) ->
  valid_index B C i1 -> valid_index B C i2 ->
  one_hot (F := F) C i1 = one_hot C i2 -> i1 = i2.
Proof.
  intros Hone [Hl1 Hr1] [Hl2 Hr2] Heq. apply list_eq. intros r.
  destruct (i1 !! r) as [k1|] eqn:H1.
  - destruct (lookup_lt_is_Some_2 i2 r) as [k2 H2].
    { apply lookup_lt_Some in H1. lia. }
    rewrite H2. f_equal.
    rewrite Forall_lookup in Hr1. rewrite Forall_lookup in Hr2.
    pose proof (Hr1 r k1 H1) as Hk1. pose proof (Hr2 r k2 H2) as Hk2.
    assert (Hj : Z.to_nat k1 < C) by lia.
    pose proof (one_hot_entry (F := F) C i1 r k1 (Z.to_nat k1) H1 Hk1 Hj) as E1.
    pose proof (one_hot_entry (F := F) C i2 r k2 (Z.to_nat k1) H2 Hk2 Hj) as E2.
    rewrite Heq, E2 in E1.
    rewrite (decide_True (P := Z.to_nat k1 = Z.to_nat k1)) in E1 by done.
    destruct (decide (Z.to_nat k1 = Z.to_nat k2)) as [Hn|Hn]; [lia|].
    injection E1 as E1. symmetry in E1. by apply Hone in E1.
  - symmetry. apply lookup_ge_None. apply lookup_ge_None in H1. lia.
Qed.

Lemma read_after_emb (w : world F R) l s t :
  heap w !! l = Some s ->
  read (with_heap w (<[l := Storage (placed s) t]> (heap w))) l = Some t.
Proof.
  intros Hl. unfold read. simpl.
  rewrite list_lookup_insert_eq; [done|]. by apply lookup_lt_Some in Hl.
Qed.

(** C1: for index vectors of length B with values in [0, C), [emb]
    returns a (B, C) matrix that is all-zero except exactly one 1 per row,
    at column index[i] of row i; and after a second call no 1 of the first
    call is left in the result: wherever the first index named a column
    that the second does not, the second result holds 0. *)
Theorem emb_one_hot_no_leak (self : GRU F) (w : world F R)
    (i1 i2 : list Z) (v1 v2 : bool) :
  fone <> (fzero : F) ->
  buffer_ready self w ->
  valid_index (batch_size self) (output_size self) i1 ->
  valid_index (batch_size self) (output_size self) i2 ->
  exists l1 w1 t1 l2 w2 t2,
    emb self i1 v1 w = (inr l1, w1) /\ read w1 l1 = Some t1
    /\ emb self i2 v2 w1 = (inr l2, w2) /\ read w2 l2 = Some t2
    /\ is_one_hot (batch_size self) (output_size self) i1 t1
    /\ is_one_hot (batch_size self) (output_size self) i2 t2
    /\ (forall i j, entry t1 i j = Some fone -> i1 !! i = Some (Z.of_nat j))
    /\ (forall i j, entry t2 i j = Some fone -> i2 !! i = Some (Z.of_nat j))
    /\ (forall i k, i1 !! i = Some k -> i2 !! i <> Some k ->
          entry t2 i (Z.to_nat k) = Some fzero
          /\ entry t2 i (Z.to_nat k) <> Some fone).
Proof.
  intros Hone Hready Hv1 Hv2.
  pose proof Hready as (s & Hl & Hsh & Hdev).
  pose proof (emb_ok self w i1 v1 s Hl Hsh Hdev Hv1) as Hrun1.
  pose proof (emb_keeps_ready self w _ i1 v1 _ Hready Hv1 Hrun1)
    as (s1 & Hl1 & Hsh1 & Hdev1).
  pose proof (emb_ok self _ i2 v2 s1 Hl1 Hsh1 Hdev1 Hv2) as Hrun2.
  assert (Huniq : forall (ix : list Z) i j,
             valid_index (batch_size self) (output_size self) ix ->
             entry (one_hot (F := F) (output_size self) ix) i j = Some fone ->
             ix !! i = Some (Z.of_nat j)).
  { intros ix i j [Hlen Hrange] He.
    destruct (ix !! i) as [k|] eqn:Hk.
    - rewrite Forall_lookup in Hrange. pose proof (Hrange i k Hk) as Hr.
      assert (Hj : j < output_size self).
      { unfold entry in He. rewrite (one_hot_lookup _ _ _ _ Hk) in He.
        apply lookup_lt_Some in He.
        by rewrite length_insert, length_replicate in He. }
      rewrite (one_hot_entry _ ix i k j Hk Hr Hj) in He.
      destruct (decide (j = Z.to_nat k)) as [->|Hne].
      + f_equal. lia.
      + injection He as He. symmetry in He. by apply Hone in He.
    - unfold entry, one_hot in He.
      by rewrite list_lookup_fmap, Hk in He. }
  eexists _, _, _, _, _, _.
  split; [exact Hrun1|]. split; [by apply read_after_emb|].
  split; [exact Hrun2|]. split; [by apply read_after_emb|].
  split; [by apply one_hot_is_one_hot|].
  split; [by apply one_hot_is_one_hot|].
  split; [intros i j; by apply Huniq|].
  split; [intros i j; by apply Huniq|].
  intros i k H1 H2.
  assert (Hz : entry (one_hot (F := F) (output_size self) i2) i (Z.to_nat k)
               = Some fzero).
  { destruct Hv1 as [Hlen1 Hr1]. destruct Hv2 as [Hlen2 Hr2].
    destruct (lookup_lt_is_Some_2 i2 i) as [k2 Hk2].
    { apply lookup_lt_Some in H1. lia. }
    rewrite Forall_lookup in Hr1. rewrite Forall_lookup in Hr2.
    pose proof (Hr1 i k H1). pose proof (Hr2 i k2 Hk2).
    rewrite (one_hot_entry _ i2 i k2 (Z.to_nat k) Hk2) by lia.
    rewrite decide_False; [done|].
    intros Heq. apply H2. rewrite Hk2. f_equal. lia. }
  split; [done|]. rewrite Hz. intros [= Heq]. symmetry in Heq.
  by apply Hone in Heq.
Qed.

(** C8: an index outside [0, C) makes [emb] raise instead of returning a
    result; for an index vector that fits the buffer (at most B entries,
    so in particular for one of length B) the fault is the range fault. *)
Theorem emb_out_of_range_fails (self : GRU F) (w : world F R)
    (input : list Z) (volatile : bool) :
  buffer_ready self w ->
  Exists (fun k => ~ (0 <= k < Z.of_nat (output_size self))%Z) input ->
  exists e w', emb self input volatile w = (inl e, w')
               /\ (length input <= batch_size self -> e = RangeError).
Proof.
  intros (s & Hl & [HB HC] & Hdev) Hbad.
  set (l := onehot_buffer self) in *.
  pose proof (lookup_lt_Some _ _ _ Hl) as Hlt.
  set (s1 := Storage (placed s) (map (map (fun _ => fzero)) (rows s))).
  set (w1 := with_heap w (<[l := s1]> (heap w))).
  assert (Hl1 : heap w1 !! l = Some s1)
    by (simpl; by rewrite list_lookup_insert_eq).
  unfold emb. fold l.
  rewrite (bind_ok _ _ _ _ _ (zero__ok w l s Hl)). fold s1. fold w1.
  destruct (decide (length input <= batch_size self)) as [Hfit|Hbig].
  - destruct (scatter_loop_range l fone input 0 w1 s1 (output_size self) Hl1)
      as (w' & Hrun); [simpl; rewrite !length_map; lia | | done |].
    { simpl. apply Forall_fmap. eapply Forall_impl; [exact HC|].
      intros row Hrow. simpl. by rewrite length_map. }
    exists RangeError, w'. split; [|done].
    apply bind_fail. unfold scatter_.
    rewrite (bind_ok _ _ _ _ _ (deref_ok _ _ _ Hl1)).
    rewrite decide_True; [done|].
    rewrite length_view_column. simpl. rewrite !length_map. lia.
  - exists ShapeError, w1. split; [|lia].
    apply bind_fail. unfold scatter_.
    rewrite (bind_ok _ _ _ _ _ (deref_ok _ _ _ Hl1)).
    rewrite decide_False; [done|].
    rewrite length_view_column. simpl. rewrite !length_map. lia.
Qed.

(** C10: the value [emb] returns is the layer's one scratch buffer, not a
    new tensor: after [emb] on i1 and then on i2, the handle returned by
    the first call holds the one-hot encoding of i2, and no longer that of
    i1 when the two index vectors differ. *)
Theorem emb_result_aliases_buffer (self : GRU F)
    (w : world F R) (i1 i2 : list Z) (v1 v2 : bool) :
  fone <> (fzero : F) ->
  buffer_ready self w ->
  valid_index (batch_size self) (output_size self) i1 ->
  valid_index (batch_size self) (output_size self) i2 ->
  exists l1 w1 l2 w2,
    emb self i1 v1 w = (inr l1, w1)
    /\ emb self i2 v2 w1 = (inr l2, w2)
    /\ l1 = onehot_buffer self /\ l2 = l1
    /\ read w1 l1 = Some (one_hot (output_size self) i1)
    /\ read w2 l1 = Some (one_hot (output_size self) i2)
    /\ (i1 <> i2 -> read w2 l1 <> Some (one_hot (output_size self) i1)).
Proof.
  intros Hone Hready Hv1 Hv2.
  pose proof Hready as (s & Hl & Hsh & Hdev).
  pose proof (emb_ok self w i1 v1 s Hl Hsh Hdev Hv1) as Hrun1.
  pose proof (emb_keeps_ready self w _ i1 v1 _ Hready Hv1 Hrun1)
    as (s1 & Hl1 & Hsh1 & Hdev1).
  pose proof (emb_ok self _ i2 v2 s1 Hl1 Hsh1 Hdev1 Hv2) as Hrun2.
  eexists _, _, _, _.
  split; [exact Hrun1|]. split; [exact Hrun2|].
  split; [done|]. split; [done|].
  split; [by apply read_after_emb|].
  assert (Hread2 : read (with_heap
             (with_heap w (<[onehot_buffer self :=
                Storage (placed s) (one_hot (output_size self) i1)]> (heap w)))
             (<[onehot_buffer self :=
                Storage (placed s1) (one_hot (output_size self) i2)]>
                (heap (with_heap w (<[onehot_buffer self :=
                   Storage (placed s) (one_hot (output_size self) i1)]>
                   (heap w)))))) (onehot_buffer self)
           = Some (one_hot (output_size self) i2))
    by (by apply read_after_emb).
  split; [exact Hread2|].
  intros Hne. rewrite Hread2. intros [= Heq]. apply Hne. symmetry.
  by apply (one_hot_inj (batch_size self) (output_size self)).
Qed.

End EmbClaims.

(** ** Claims about [switch_mode] and [init_hidden] *)

Section ModeClaims.
Context {F R : Type} `{Scalar F} `{Random F R}.

Lemma switch_mode_run (self : GRU F) (w : world F R) :
  exists line,
    switch_mode self w =
      (inr (switched self),
       World (heap w) (gen w) (junk w) (stdout w ++ [line]) (cuda_available w)).
Proof. by eexists. Qed.

Lemma cells_flags_set (b : bool) (cs : list (GRUCell F)) :
  concat (map GRUCell_flags (map (GRUCell_set_grad b) cs))
  = replicate (length (concat (map GRUCell_flags cs))) b.
Proof.
  induction cs as [|c cs IH]; [done|].
  cbn [map concat]. rewrite IH. by rewrite length_app.
Qed.

Lemma parameters_switched (self : GRU F) :
  parameters (switched self)
  = replicate (length (parameters self)) (negb (training self)).
Proof.
  unfold parameters, switched. cbn [h2o gru cells nnGRU_train nnGRU_set_grad].
  rewrite cells_flags_set. by rewrite length_app.
Qed.

Lemma set_grad_same {A} (p : param A) :
  set_grad (requires_grad p) p = p.
Proof. by destruct p. Qed.

Lemma cells_set_grad_same (b : bool) (cs : list (GRUCell F)) :
  Forall (fun g => g = b) (concat (map GRUCell_flags cs)) ->
  map (GRUCell_set_grad b) cs = cs.
Proof.
  induction cs as [|c cs IH]; [done|].
  cbn [map concat]. intros Hall. apply Forall_app in Hall as [Hc Hcs].
  rewrite IH by done. f_equal.
  destruct c as [[? ?] [? ?] [? ?] [? ?]].
  unfold GRUCell_flags in Hc. simpl in Hc.
  by repeat (apply Forall_cons in Hc as [<- Hc]).
Qed.

(** Two switches bring a mode-consistent layer back to itself. *)
Lemma switched_twice (self : GRU F) :
  mode_consistent self -> switched (switched self) = self.
Proof.
  intros [Hpar Hrnn]. unfold parameters in Hpar.
  apply Forall_app in Hpar as [Hlin Hcs].
  destruct self as [hp0 tr buf lin rnn].
  destruct lin as [n_in n_out [wv wg] [bv bg]].
  destruct rnn as [a b c d e cs].
  simpl in *. unfold Linear_flags in Hlin. simpl in Hlin.
  apply Forall_cons in Hlin as [-> Hlin].
  apply Forall_cons in Hlin as [-> _]. subst e.
  unfold switched, Linear_set_grad, nnGRU_train, nnGRU_set_grad, set_grad.
  simpl. rewrite negb_involutive.
  rewrite map_map.
  assert (Hmap : map (fun x => GRUCell_set_grad tr
                                 (GRUCell_set_grad (negb tr) x)) cs = cs).
  { rewrite <- (cells_set_grad_same tr cs Hcs) at 2.
    apply map_ext. by intros [? ? ? ?]. }
  by rewrite Hmap.
Qed.

(** C7: every call to [switch_mode] completes and leaves the layer
    mode-consistent: the stored flag is the negation of the previous one,
    the gradient-tracking flag of every learnable parameter equals the new
    flag, and so does the dropout mode of the recurrent stack.  The
    parameters are the same ones, and nothing else of the layer or the
    store changes. *)
Theorem switch_mode_consistent (self : GRU F) (w : world F R) :
  exists self' w',
    switch_mode self w = (inr self', w')
    /\ training self' = negb (training self)
    /\ Forall (fun g => g = training self') (parameters self')
    /\ length (parameters self') = length (parameters self)
    /\ rnn_training (gru self') = training self'
    /\ mode_consistent self'
    /\ hp self' = hp self /\ onehot_buffer self' = onehot_buffer self
    /\ heap w' = heap w /\ gen w' = gen w.
Proof.
  destruct (switch_mode_run self w) as [line Hrun].
  eexists _, _. split; [exact Hrun|].
  assert (Hall : Forall (fun g => g = training (switched self))
                   (parameters (switched self))).
  { rewrite parameters_switched. apply Forall_replicate. done. }
  split_and!; try done.
  by rewrite parameters_switched, length_replicate.
Qed.

(** C6, as the code has it: two calls to [switch_mode] complete and
    restore the mode flag; afterwards every parameter's gradient-tracking
    flag equals that (original) mode flag, so a parameter gets its flag
    back exactly when it agreed with the mode flag before the first call.
    A mode-consistent layer is restored as a whole. *)
Theorem switch_mode_twice (self : GRU F) (w : world F R) :
  exists self1 w1 self2 w2,
    switch_mode self w = (inr self1, w1)
    /\ switch_mode self1 w1 = (inr self2, w2)
    /\ training self2 = training self
    /\ length (parameters self2) = length (parameters self)
    /\ (forall i g, parameters self !! i = Some g ->
          parameters self2 !! i = Some (training self)
          /\ (parameters self2 !! i = parameters self !! i
              <-> g = training self))
    /\ (mode_consistent self -> self2 = self).
Proof.
  destruct (switch_mode_run self w) as [line1 Hrun1].
  destruct (switch_mode_run (switched self)
              (World (heap w) (gen w) (junk w) (stdout w ++ [line1])
                 (cuda_available w)))
    as [line2 Hrun2].
  eexists _, _, _, _. split; [exact Hrun1|]. split; [exact Hrun2|].
  assert (Hpar : parameters (switched (switched self))
                 = replicate (length (parameters self)) (training self)).
  { rewrite !parameters_switched, length_replicate. simpl.
    by rewrite negb_involutive. }
  split_and!.
  - simpl. by rewrite negb_involutive.
  - by rewrite Hpar, length_replicate.
  - intros i g Hi. rewrite Hpar, Hi.
    rewrite lookup_replicate_2 by (by eapply lookup_lt_Some).
    split; [done|]. split; congruence.
  - apply switched_twice.
Qed.

(** C9: [init_hidden] always returns the all-zero tensor of shape
    (L, B, H) and changes nothing; the result is the same for any two
    layers with the same three dimensions, in any two worlds. *)
Theorem init_hidden_zeros (self : GRU F) (w : world F R) :
  init_hidden self w
  = (inr (zeros3 (num_layers self) (batch_size self) (hidden_size self)), w)
  /\ shape3 (num_layers self) (batch_size self) (hidden_size self)
       (zeros3 (num_layers self) (batch_size self) (hidden_size self))
  /\ (forall m row x,
        m ∈ zeros3 (num_layers self) (batch_size self) (hidden_size self) ->
        row ∈ m -> x ∈ row -> x = fzero)
  /\ (forall (other : GRU F) (w' : world F R),
        num_layers other = num_layers self ->
        batch_size other = batch_size self ->
        hidden_size other = hidden_size self ->
        fst (init_hidden other w') = fst (init_hidden self w)).
Proof.
  assert (Hrun : forall (g : GRU F) (v : world F R),
             init_hidden g v
             = (inr (zeros3 (num_layers g) (batch_size g) (hidden_size g)), v)).
  { intros g v. unfold init_hidden. by destruct (use_cuda g). }
  split_and!.
  - apply Hrun.
  - unfold zeros3. split; [by rewrite length_replicate|].
    apply Forall_replicate. split; [by rewrite length_replicate|].
    apply Forall_replicate. by rewrite length_replicate.
  - unfold zeros3. intros m row x Hm Hrow Hx.
    apply elem_of_replicate in Hm as [-> _].
    apply elem_of_replicate in Hrow as [-> _].
    by apply elem_of_replicate in Hx as [-> _].
  - intros other w' HL HB HH. rewrite !Hrun. simpl. by rewrite HL, HB, HH.
Qed.

End ModeClaims.

(** ** The input dropout *)

Section DropoutFacts.
Context {F R : Type} `{Scalar F} `{Random F R}.

Lemma draw_coins_length p n : forall g : R,
  length (fst (draw_coins p n g)) = n.
Proof.
  induction n as [|n IH]; intros g; simpl; [done|].
  destruct (bernoulli1 p g) as [c g1]. specialize (IH g1).
  destruct (draw_coins p n g1) as [cs g2]. simpl in *. by rewrite IH.
Qed.

Lemma draw_row (p : F) (w : world F R) :
  mapM draw_bernoulli [p] w
  = (inr [coin (fst (bernoulli1 p (gen w)))],
     with_gen w (snd (bernoulli1 p (gen w)))).
Proof.
  simpl. unfold bind, draw_bernoulli, ret, coin, with_gen.
  by destruct (bernoulli1 p (gen w)).
Qed.

(** [torch.bernoulli] on the (B, 1) tensor filled with [p] draws B coins,
    one after the other, and returns them as one column. *)
Lemma bernoulli_fill p n : forall w : world F R,
  bernoulli (fill n 1 p) w
  = (inr (map (fun c => [coin c]) (fst (draw_coins p n (gen w)))),
     with_gen w (snd (draw_coins p n (gen w)))).
Proof.
  unfold bernoulli, fill.
  induction n as [|n IH]; intros w.
  - simpl. unfold ret. by destruct w.
  - change (mapM (mapM draw_bernoulli) (replicate (S n) (replicate 1 p)))
      with (let* b := mapM draw_bernoulli [p] in
            let* bs := mapM (mapM draw_bernoulli) (replicate n (replicate 1 p)) in
            ret (b :: bs)).
    rewrite (bind_ok _ _ _ _ _ (draw_row p w)).
    rewrite (bind_ok _ _ _ _ _ (IH _)).
    cbn [draw_coins gen with_gen].
    destruct (bernoulli1 p (gen w)) as [c g1].
    cbn [fst snd]. by destruct (draw_coins p n g1) as [cs g2].
Qed.

Lemma expand_tmul (coins : list bool) : forall (embedded : list (list F)),
  tmul embedded (expand_as (map (fun c => [coin c]) coins) embedded)
  = zip_with (fun c row => zip_with fmul row (replicate (length row) (coin c)))
      coins embedded.
Proof.
  unfold tmul, expand_as.
  induction coins as [|c coins IH]; intros [|row embedded]; simpl; try done.
  by rewrite IH.
Qed.

Lemma zip_with_replicate_r {A B C} (f : A -> B -> C) (l : list A) (b : B) :
  zip_with f l (replicate (length l) b) = map (fun a => f a b) l.
Proof. induction l as [|a l IH]; simpl; by rewrite ?IH. Qed.

Lemma tmul_mask_rows (coins : list bool) (embedded : list (list F)) :
  tmul embedded (expand_as (map (fun c => [coin c]) coins) embedded)
  = mask_rows coins embedded.
Proof.
  rewrite expand_tmul. unfold mask_rows.
  apply zip_with_ext; [|done|done]. intros c row.
  apply zip_with_replicate_r.
Qed.

(** The input dropout in training mode, in one equation. *)
Lemma input_dropout_train (self : GRU F) (embedded : list (list F))
    (w : world F R) :
  training self = true ->
  input_dropout self embedded w
  = (inr (mask_rows
            (fst (draw_coins (fsub fone (dropout_input self))
                    (length embedded) (gen w)))
            embedded),
     with_gen w (snd (draw_coins (fsub fone (dropout_input self))
                        (length embedded) (gen w)))).
Proof.
  intros Htr. unfold input_dropout. rewrite Htr.
  rewrite (bind_ok _ _ _ _ _ (bernoulli_fill _ _ w)).
  unfold ret. by rewrite tmul_mask_rows.
Qed.

Lemma input_dropout_eval (self : GRU F) (embedded : list (list F))
    (w : world F R) :
  training self = false -> input_dropout self embedded w = (inr embedded, w).
Proof. intros Htr. unfold input_dropout. by rewrite Htr. Qed.

Lemma mask_rows_product (coins : list bool) (embedded : list (list F))
    (i : nat) (c : bool) (row : list F) :
  coins !! i = Some c -> embedded !! i = Some row ->
  mask_rows coins embedded !! i = Some (map (fun x => fmul x (coin c)) row).
Proof.
  intros Hc Hrow. unfold mask_rows.
  rewrite lookup_zip_with, Hc. simpl. by rewrite Hrow.
Qed.

(** A row of features that a product with one leaves alone survives a
    coin of one. *)
Lemma kept_row (row : list F) :
  Forall (fun x => fmul x fone = x) row ->
  map (fun x => fmul x (coin true)) row = row.
Proof.
  unfold coin. induction 1 as [|x row Hx _ IH]; simpl; [done|].
  by rewrite Hx, IH.
Qed.

(** A row of features that a product with zero sends to zero is zeroed
    by a coin of zero. *)
Lemma dropped_row (row : list F) :
  Forall (fun x => fmul x fzero = fzero) row ->
  map (fun x => fmul x (coin false)) row = replicate (length row) fzero.
Proof.
  unfold coin. induction 1 as [|x row Hx _ IH]; simpl; [done|].
  by rewrite Hx, IH.
Qed.

(** C4, as the code has it: in training mode [forward] draws one coin of
    probability 1 - dropout_input for each of the B rows of the embedded
    batch and multiplies every feature x of a row by the value of that
    row's coin.  A row whose coin is 1 is the original row when x * 1 = x
    for its features; a row whose coin is 0 holds x * 0 in every feature,
    which is the all-zero row when x * 0 = 0 for its features and not
    otherwise.  In inference mode the embedded input goes on unchanged and
    no coin is drawn. *)
Theorem input_dropout_rowwise (self : GRU F)
    (embedded : list (list F)) (target : list Z)
    (hidden : list (list (list F))) (w : world F R) :
  (training self = true ->
     exists coins g',
       draw_coins (fsub fone (dropout_input self)) (length embedded) (gen w)
       = (coins, g')
       /\ length coins = length embedded
       /\ input_dropout self embedded w
          = (inr (mask_rows coins embedded), with_gen w g')
       /\ (forall i row, embedded !! i = Some row ->
             exists c, coins !! i = Some c
               /\ mask_rows coins embedded !! i
                  = Some (map (fun x => fmul x (coin c)) row)
               /\ (c = true -> Forall (fun x => fmul x fone = x) row ->
                     mask_rows coins embedded !! i = Some row)
               /\ (c = false -> Forall (fun x => fmul x fzero = fzero) row ->
                     mask_rows coins embedded !! i
                     = Some (replicate (length row) fzero)))
       /\ forward self embedded target hidden w
          = after_dropout self (mask_rows coins embedded) target hidden
              (with_gen w g'))
  /\ (training self = false ->
        input_dropout self embedded w = (inr embedded, w)
        /\ forward self embedded target hidden w
           = after_dropout self embedded target hidden w).
Proof.
  split; intros Htr.
  - pose proof (input_dropout_train self embedded w Htr) as Hrun.
    pose proof (draw_coins_length (fsub fone (dropout_input self))
                  (length embedded) (gen w)) as Hlen.
    destruct (draw_coins _ _ _) as [coins g'] eqn:Hdraw. simpl in *.
    exists coins, g'. split_and!; try done.
    + intros i row Hrow.
      destruct (lookup_lt_is_Some_2 coins i) as [c Hc].
      { apply lookup_lt_Some in Hrow. lia. }
      pose proof (mask_rows_product coins embedded i c row Hc Hrow) as Hprod.
      exists c. split; [done|]. split; [done|]. split.
      * intros -> Hone. by rewrite Hprod, kept_row.
      * intros -> Hzero. by rewrite Hprod, dropped_row.
    + unfold forward. by rewrite (bind_ok _ _ _ _ _ Hrun).
  - pose proof (input_dropout_eval self embedded w Htr) as Hrun.
    split; [done|]. unfold forward. by rewrite (bind_ok _ _ _ _ _ Hrun).
Qed.

End DropoutFacts.

(** ** Shapes through the recurrent stack and the output head *)

Section ShapeFacts.
Context {F R : Type} `{Scalar F} `{Random F R}.

Lemma has_width_true m (t : list (list F)) :
  Forall (fun r => length r = m) t -> has_width m t = true.
Proof.
  unfold has_width. induction 1 as [|r t Hr _ IH]; simpl; [done|].
  rewrite IH, andb_true_r. by apply Nat.eqb_eq.
Qed.

Lemma has_shape2_true n m (t : list (list F)) :
  shape2 n m t -> has_shape2 n m t = true.
Proof.
  intros [Hn Hm]. unfold has_shape2. rewrite (has_width_true m t Hm).
  rewrite andb_true_r. by apply Nat.eqb_eq.
Qed.

Lemma has_shape3_true l n m (t : list (list (list F))) :
  shape3 l n m t -> has_shape3 l n m t = true.
Proof.
  intros [Hl Hall]. unfold has_shape3.
  replace (length t =? l) with true by (symmetry; by apply Nat.eqb_eq).
  simpl. clear Hl. induction Hall as [|x t Hx _ IH]; simpl; [done|].
  by rewrite (has_shape2_true n m x Hx), IH.
Qed.

Lemma length_affine (W : list (list F)) (b x : list F) :
  length (affine W b x) = min (length W) (length b).
Proof. unfold affine. by rewrite length_zip_with, length_map. Qed.

Lemma length_gru_cell_row (c : GRUCell F) width hidden (x h : list F) :
  wf_cell width hidden c -> length h = hidden ->
  length (gru_cell_row c hidden x h) = hidden.
Proof.
  intros ([Hih _] & [Hhh _] & Hbi & Hbh) Hh. unfold gru_cell_row.
  repeat first
    [ rewrite length_zip_with | rewrite length_zip | rewrite length_map
    | rewrite length_take | rewrite length_drop | rewrite length_affine ].
  rewrite Hih, Hhh, Hbi, Hbh, Hh. lia.
Qed.

Lemma gru_cell_shape (c : GRUCell F) width hidden B (x h : list (list F)) :
  wf_cell width hidden c -> length x = B -> shape2 B hidden h ->
  shape2 B hidden (gru_cell c hidden x h).
Proof.
  intros Hwf Hx [Hh Hrows]. unfold gru_cell. split.
  - rewrite length_zip_with. lia.
  - apply Forall_lookup. intros i r Hi.
    apply lookup_zip_with_Some in Hi as (xr & hr & -> & _ & Hhr).
    apply (length_gru_cell_row c width); [done|].
    rewrite Forall_lookup in Hrows. by apply (Hrows i).
Qed.

Lemma run_layer_shape (c : GRUCell F) width hidden B :
  wf_cell width hidden c ->
  forall (xs : list (list (list F))) (h : list (list F)),
    Forall (fun x => length x = B) xs -> shape2 B hidden h ->
    length (fst (run_layer c hidden xs h)) = length xs
    /\ Forall (shape2 B hidden) (fst (run_layer c hidden xs h))
    /\ shape2 B hidden (snd (run_layer c hidden xs h)).
Proof.
  intros Hwf. induction xs as [|x xs IH]; intros h Hxs Hh; simpl.
  - by split_and!.
  - apply Forall_cons in Hxs as [Hx Hxs].
    pose proof (gru_cell_shape c width hidden B x h Hwf Hx Hh) as H1.
    specialize (IH _ Hxs H1).
    destruct (run_layer c hidden xs (gru_cell c hidden x h)) as [ys hT].
    simpl in *. destruct IH as (Hlen & Hys & HhT).
    split; [by rewrite Hlen|]. split; [by constructor|done].
Qed.

Lemma mapM_total {A B} (f : A -> M F R B) (P : A -> B -> Prop) :
  (forall a w, exists b w', f a w = (inr b, w') /\ heap w' = heap w /\ P a b) ->
  forall l w, exists bs w',
    mapM f l w = (inr bs, w') /\ heap w' = heap w /\ Forall2 P l bs.
Proof.
  intros Hf. induction l as [|a l IH]; intros w; simpl.
  - eexists _, _. by repeat split.
  - destruct (Hf a w) as (b & w1 & Hb & Hh1 & HP).
    destruct (IH w1) as (bs & w2 & Hbs & Hh2 & HPs).
    rewrite (bind_ok _ _ _ _ _ Hb), (bind_ok _ _ _ _ _ Hbs).
    exists (b :: bs), w2. split; [done|]. split; [congruence|].
    by constructor.
Qed.

Lemma dropout_elem_total (p x : F) (w : world F R) :
  exists y w', dropout_elem p x w = (inr y, w') /\ heap w' = heap w /\ True.
Proof.
  unfold dropout_elem, bind, draw_bernoulli.
  destruct (bernoulli1 (fsub fone p) (gen w)) as [c g]. by eexists _, _.
Qed.

(** Dropout changes values, never shapes. *)
Lemma dropout3_ok (p : F) (ys : list (list (list F))) (w : world F R) :
  exists ys' w',
    dropout3 p ys w = (inr ys', w') /\ heap w' = heap w
    /\ length ys' = length ys
    /\ forall n m, Forall (shape2 n m) ys -> Forall (shape2 n m) ys'.
Proof.
  unfold dropout3.
  destruct (mapM_total (mapM (mapM (dropout_elem p)))
              (fun t t' : list (list F) =>
                 forall n m, shape2 n m t -> shape2 n m t')) with (l := ys)
    (w := w) as (ys' & w' & Hrun & Hh & Hall).
  { intros t v.
    destruct (mapM_total (mapM (dropout_elem p))
                (fun r r' : list F => length r' = length r)) with (l := t)
      (w := v) as (t' & v' & Hrun & Hh & Hall).
    { intros r u.
      destruct (mapM_total (dropout_elem p) (fun _ _ => True)
                  (dropout_elem_total p) r u) as (r' & u' & Hrun & Hh & Hall).
      exists r', u'. split; [done|]. split; [done|].
      symmetry. by eapply Forall2_length. }
    exists t', v'. split; [done|]. split; [done|].
    intros n m [Hn Hm]. split.
    - rewrite <- Hn. symmetry. by eapply Forall2_length.
    - clear Hrun Hn. induction Hall as [|r r' t t' Hr _ IH]; [done|].
      apply Forall_cons in Hm as [Hm1 Hm2]. constructor; [congruence|].
      by apply IH. }
  exists ys', w'. split; [done|]. split; [done|]. split.
  - symmetry. by eapply Forall2_length.
  - intros n m Hys. clear Hrun.
    induction Hall as [|t t' ys ys' Ht _ IH]; [done|].
    apply Forall_cons in Hys as [H1 H2]. constructor; [by apply Ht|].
    by apply IH.
Qed.

Lemma shape2_rows n m (t : list (list F)) : shape2 n m t -> length t = n.
Proof. by intros [? _]. Qed.

(** The stack succeeds on well-shaped arguments; every layer hands on a
    (B, H) output per time step and a (B, H) final state. *)
Lemma gru_stack_ok (m : nnGRU F) B :
  forall (cs : list (GRUCell F)) width (xs h0 : list (list (list F)))
         (w : world F R),
    wf_cells width (rnn_hidden_size m) cs ->
    Forall (fun x => length x = B) xs ->
    length h0 = length cs ->
    Forall (shape2 B (rnn_hidden_size m)) h0 ->
    exists out hs w',
      gru_stack m cs xs h0 w = (inr (out, hs), w') /\ heap w' = heap w
      /\ length out = length xs
      /\ (cs <> [] -> Forall (shape2 B (rnn_hidden_size m)) out)
      /\ length hs = length cs
      /\ Forall (shape2 B (rnn_hidden_size m)) hs.
Proof.
  induction cs as [|c cs IH]; intros width xs h0 w Hwf Hxs Hlen Hh0.
  - simpl. eexists _, _, _. by split_and!.
  - destruct h0 as [|h h0]; [done|]. simpl in Hlen.
    destruct Hwf as [Hc Hcs]. apply Forall_cons in Hh0 as [Hh Hh0].
    destruct (run_layer_shape c width _ B Hc xs h Hxs Hh) as (Hl & Hys & HhT).
    cbn [gru_stack].
    destruct (run_layer c (rnn_hidden_size m) xs h) as [ys hT].
    simpl in Hl, Hys, HhT.
    assert (Hdrop : exists ys' w1,
               (match cs with
                | [] => ret ys
                | _ :: _ =>
                    if rnn_training m && fltb fzero (rnn_dropout m)
                    then dropout3 (rnn_dropout m) ys
                    else ret ys
                end) w = (inr ys', w1)
               /\ heap w1 = heap w /\ length ys' = length xs
               /\ Forall (shape2 B (rnn_hidden_size m)) ys').
    { destruct cs as [|c' cs']; [by eexists _, _|].
      destruct (rnn_training m && fltb fzero (rnn_dropout m));
        [|by eexists _, _].
      destruct (dropout3_ok (rnn_dropout m) ys w)
        as (ys' & w1 & Hrun & Hh1 & Hlen1 & Hsh1).
      exists ys', w1. split_and!; try done; [congruence|by apply Hsh1]. }
    destruct Hdrop as (ys' & w1 & Hrun1 & Hh1 & Hlen1 & Hsh1).
    destruct (IH (rnn_hidden_size m) ys' h0 w1 Hcs) as
      (out & hs & w2 & Hrun2 & Hh2 & Hlo & Hout & Hlhs & Hhs).
    { eapply Forall_impl; [exact Hsh1|]. intros x. apply shape2_rows. }
    { lia. }
    { done. }
    rewrite (bind_ok _ _ _ _ _ Hrun1), (bind_ok _ _ _ _ _ Hrun2).
    exists out, (hT :: hs), w2. split_and!; try done.
    + congruence.
    + congruence.
    + intros _. destruct cs as [|c' cs']; [|by apply Hout].
      simpl in Hrun2. injection Hrun2 as <- _ _. done.
    + simpl. by rewrite Hlhs.
    + by constructor.
Qed.

End ShapeFacts.

(** ** Claims about [forward] *)

Section ForwardClaims.
Context {F R : Type} `{Scalar F} `{Random F R}.

Lemma nnGRU_forward_ok (self : GRU F) B (e : list (list F))
    (hidden : list (list (list F))) (w : world F R) :
  wf_layer self ->
  shape2 B (input_size self) e ->
  shape3 (num_layers self) B (hidden_size self) hidden ->
  exists o hs w',
    nnGRU_forward (gru self) [e] hidden w = (inr ([o], hs), w')
    /\ heap w' = heap w
    /\ shape2 B (hidden_size self) o
    /\ shape3 (num_layers self) B (hidden_size self) hs.
Proof.
  intros (HL & _ & _ & _ & _ & Hi & Hh & Hn & Hlen & Hcs) He Hhid.
  pose proof (shape2_rows _ _ _ He) as HB.
  unfold nnGRU_forward. cbn [forallb]. rewrite Hi, Hh, Hn, HB.
  rewrite (has_shape2_true _ _ _ He), (has_shape3_true _ _ _ _ Hhid).
  cbn [andb].
  destruct Hhid as [Hhl Hhs].
  destruct (gru_stack_ok (gru self) B (cells (gru self)) (input_size self)
              [e] hidden w) as (out & hs & w' & Hrun & Hheap & Hlo & Hout
                                  & Hlhs & Hhs').
  { by rewrite Hh. }
  { by constructor. }
  { lia. }
  { by rewrite Hh. }
  rewrite Hh in Hout, Hhs'.
  destruct out as [|o [|o' out]]; try done.
  assert (Hne : cells (gru self) <> []).
  { intros Hnil. rewrite Hnil in Hlen. simpl in Hlen. lia. }
  apply Hout in Hne. apply Forall_cons in Hne as [Ho _].
  exists o, hs, w'. split_and!; try done. split; [lia|done].
Qed.

Lemma score_ok (self : GRU F) B (e : list (list F))
    (hidden : list (list (list F))) (w : world F R) :
  wf_layer self ->
  shape2 B (input_size self) e ->
  shape3 (num_layers self) B (hidden_size self) hidden ->
  exists logit hs w',
    score self e hidden w = (inr (logit, hs), w')
    /\ heap w' = heap w
    /\ shape2 B (output_size self) logit
    /\ shape3 (num_layers self) B (hidden_size self) hs.
Proof.
  intros Hwf He Hhid.
  destruct (nnGRU_forward_ok self B e hidden w Hwf He Hhid)
    as (o & hs & w' & Hrun & Hheap & [Ho1 Ho2] & Hhs).
  destruct Hwf as (_ & Hin & _ & [Hw _] & Hb & _).
  unfold score. rewrite (bind_ok _ _ _ _ _ Hrun).
  cbn [concat]. rewrite app_nil_r.
  unfold Linear_forward. rewrite Hin, (has_width_true _ _ Ho2).
  eexists _, hs, w'. split; [reflexivity|]. split; [done|].
  split; [|done]. split.
  - by rewrite !length_map.
  - apply Forall_fmap, Forall_fmap, Forall_forall. intros x _. simpl.
    rewrite length_map, length_affine. lia.
Qed.

Lemma mask_rows_shape B W (coins : list bool) (e : list (list F)) :
  length coins = B -> shape2 B W e -> shape2 B W (mask_rows coins e).
Proof.
  intros Hc [He Hw]. unfold mask_rows. split.
  - rewrite length_zip_with. lia.
  - apply Forall_lookup. intros i r Hi.
    apply lookup_zip_with_Some in Hi as (c & row & -> & _ & Hrow).
    rewrite length_map. rewrite Forall_lookup in Hw. by apply (Hw i).
Qed.

Lemma in_wrapped_range C (idx : list Z) :
  Forall (fun k => (- Z.of_nat C <= k < Z.of_nat C)%Z) idx ->
  forallb (fun k => (- Z.of_nat C <=? k)%Z && (k <? Z.of_nat C)%Z) idx
  = true.
Proof.
  induction 1 as [|k idx Hk _ IH]; simpl; [done|].
  rewrite IH, andb_true_r. apply andb_true_iff. lia.
Qed.

Lemma index_columns_wrap_ok C (t : list (list F)) (idx : list Z)
    (w : world F R) :
  Forall (fun k => (- Z.of_nat C <= k < Z.of_nat C)%Z) idx ->
  index_columns C t idx w
  = (inr (map (fun row => map (fun k => nth (wrap_index C k) row fzero) idx)
            t), w).
Proof.
  intros Hidx. unfold index_columns. by rewrite (in_wrapped_range C idx Hidx).
Qed.

Lemma index_columns_ok C (t : list (list F)) (idx : list Z) (w : world F R) :
  Forall (fun k => (0 <= k < Z.of_nat C)%Z) idx ->
  index_columns C t idx w
  = (inr (map (fun row => map (fun k => nth (Z.to_nat k) row fzero) idx) t),
     w).
Proof.
  intros Hidx. rewrite index_columns_wrap_ok.
  - f_equal. f_equal. apply map_ext. intros row.
    apply Forall_fmap_ext. eapply Forall_impl; [exact Hidx|].
    intros k Hk. simpl in Hk |- *. unfold wrap_index.
    by replace (k <? 0)%Z with false by (symmetry; apply Z.ltb_ge; lia).
  - eapply Forall_impl; [exact Hidx|]. intros k Hk. simpl in *. lia.
Qed.

Lemma entry_selected C (t : list (list F)) (idx : list Z) i j k row :
  t !! i = Some row -> length row = C -> idx !! j = Some k ->
  (0 <= k < Z.of_nat C)%Z ->
  entry (map (fun row => map (fun k => nth (Z.to_nat k) row fzero) idx) t) i j
  = entry t i (Z.to_nat k)
  /\ is_Some (entry t i (Z.to_nat k)).
Proof.
  intros Hi Hlen Hj Hk. unfold entry.
  rewrite list_lookup_fmap, Hi. simpl. rewrite list_lookup_fmap, Hj. simpl.
  destruct (lookup_lt_is_Some_2 row (Z.to_nat k)) as [x Hx]; [lia|].
  rewrite Hx. split; [|by eexists]. f_equal.
  by apply nth_lookup_Some with (d := fzero) in Hx.
Qed.

(** What [forward] returns on valid input, stage by stage. *)
Lemma forward_ok (self : GRU F) B (e : list (list F)) (target : list Z)
    (hidden : list (list (list F))) (w : world F R) :
  wf_layer self ->
  shape2 B (input_size self) e ->
  shape3 (num_layers self) B (hidden_size self) hidden ->
  (training self = true -> valid_index B (output_size self) target) ->
  exists e' w0 full hidden' w',
    input_dropout self e w = (inr e', w0)
    /\ score self e' hidden w0 = (inr (full, hidden'), w')
    /\ shape2 B (output_size self) full
    /\ shape3 (num_layers self) B (hidden_size self) hidden'
    /\ forward self e target hidden w
       = (inr (if training self
               then map (fun row =>
                           map (fun k => nth (Z.to_nat k) row fzero) target)
                      full
               else full, hidden'), w').
Proof.
  intros Hwf He Hhid Htgt.
  assert (Hdrop : exists e' w0,
             input_dropout self e w = (inr e', w0)
             /\ shape2 B (input_size self) e').
  { destruct (training self) eqn:Htr.
    - eexists _, _. split; [by apply input_dropout_train|].
      apply mask_rows_shape; [|done].
      rewrite draw_coins_length. by apply shape2_rows in He.
    - eexists _, _. split; [by apply input_dropout_eval|done]. }
  destruct Hdrop as (e' & w0 & Hrun0 & He').
  destruct (score_ok self B e' hidden w0 Hwf He' Hhid)
    as (full & hs & w' & Hrun1 & _ & Hfull & Hhs).
  exists e', w0, full, hs, w'. split_and!; try done.
  unfold forward.
  rewrite (bind_ok _ _ _ _ _ Hrun0), (bind_ok _ _ _ _ _ Hrun1).
  unfold sample. destruct (training self) eqn:Htr; [|done].
  destruct Hwf as (_ & _ & Hout & _). rewrite Hout.
  destruct (Htgt eq_refl) as [_ Hrange].
  by rewrite (bind_ok _ _ _ _ _ (index_columns_ok _ full target w' Hrange)).
Qed.

(** C2: on valid input (embedded of shape (B, input_size), hidden of shape
    (L, B, H), and in training mode a target of length B with values in
    [0, C)) [forward] returns a hidden state of shape (L, B, H) in both
    modes, with logits of shape (B, B) when the training flag is set and
    (B, C) when it is not. *)
Theorem forward_shapes (self : GRU F) B (embedded : list (list F))
    (target : list Z) (hidden : list (list (list F))) (w : world F R) :
  wf_layer self ->
  shape2 B (input_size self) embedded ->
  shape3 (num_layers self) B (hidden_size self) hidden ->
  (training self = true -> valid_index B (output_size self) target) ->
  exists logit hidden' w',
    forward self embedded target hidden w = (inr (logit, hidden'), w')
    /\ shape3 (num_layers self) B (hidden_size self) hidden'
    /\ (training self = true -> shape2 B B logit)
    /\ (training self = false -> shape2 B (output_size self) logit).
Proof.
  intros Hwf He Hhid Htgt.
  destruct (forward_ok self B embedded target hidden w Hwf He Hhid Htgt)
    as (e' & w0 & full & hidden' & w' & _ & _ & [Hf1 Hf2] & Hhs & Hrun).
  eexists _, _, _. split; [exact Hrun|]. split; [done|].
  split; intros Htr; rewrite Htr; [|done].
  destruct (Htgt Htr) as [Hlen _]. split.
  - by rewrite length_map.
  - apply Forall_fmap, Forall_forall. intros row _. simpl.
    by rewrite length_map.
Qed.

(** C3: in training mode, for a target vector t of length B with values
    in [0, C), column j of the (B, B) matrix that [forward] returns is
    column t[j] of the full (B, C) logit matrix computed before the
    sampling; so two positions with the same target have identical
    columns. *)
Theorem forward_samples_target_columns (self : GRU F) B
    (embedded : list (list F)) (target : list Z)
    (hidden : list (list (list F))) (w : world F R) :
  training self = true ->
  wf_layer self ->
  shape2 B (input_size self) embedded ->
  shape3 (num_layers self) B (hidden_size self) hidden ->
  valid_index B (output_size self) target ->
  exists e' w0 full hidden' w' logit,
    input_dropout self embedded w = (inr e', w0)
    /\ score self e' hidden w0 = (inr (full, hidden'), w')
    /\ shape2 B (output_size self) full
    /\ forward self embedded target hidden w = (inr (logit, hidden'), w')
    /\ shape2 B B logit
    /\ (forall i j k, i < B -> target !! j = Some k ->
          entry logit i j = entry full i (Z.to_nat k)
          /\ is_Some (entry logit i j))
    /\ (forall i j j', target !! j = target !! j' ->
          entry logit i j = entry logit i j').
Proof.
  intros Htr Hwf He Hhid Htgt.
  destruct (forward_ok self B embedded target hidden w Hwf He Hhid
              (fun _ => Htgt))
    as (e' & w0 & full & hidden' & w' & Hrun0 & Hrun1 & Hfull & Hhs & Hrun).
  rewrite Htr in Hrun.
  eexists e', w0, full, hidden', w', _.
  split; [done|]. split; [done|]. split; [done|]. split; [exact Hrun|].
  destruct Htgt as [Hlen Hrange]. destruct Hfull as [Hf1 Hf2].
  split; [|split].
  - split; [by rewrite length_map|].
    apply Forall_fmap, Forall_forall. intros row _. simpl.
    by rewrite length_map.
  - intros i j k Hi Hj.
    destruct (lookup_lt_is_Some_2 full i) as [row Hrow]; [lia|].
    rewrite Forall_lookup in Hf2. rewrite Forall_lookup in Hrange.
    destruct (entry_selected (output_size self) full target i j k row Hrow
                (Hf2 i row Hrow) Hj (Hrange j k Hj)) as [Heq Hsome].
    split; [done|]. by rewrite Heq.
  - intros i j j' Hjj. unfold entry. rewrite list_lookup_fmap.
    destruct (full !! i) as [row|]; simpl; [|done].
    by rewrite !list_lookup_fmap, Hjj.
Qed.

End ForwardClaims.

(** ** Determinism of the inference step *)

Section Determinism.
Context {F R : Type} `{Scalar F} `{Random F R}.

Lemma pure_ret {A} (a : A) : pure_call (ret (F := F) (R := R) a).
Proof. by intros w w0. Qed.

Lemma pure_throw {A} (e : error) :
  pure_call (throw (F := F) (R := R) (A := A) e).
Proof. by intros w w0. Qed.

Lemma pure_bind {A B} (c : M F R A) (k : A -> M F R B) :
  pure_call c -> (forall a, pure_call (k a)) -> pure_call (bind c k).
Proof.
  intros Hc Hk w w0. unfold bind.
  pose proof (Hc w w0) as E1. pose proof (Hc w0 w0) as E2.
  destruct (c w0) as [r0 w0'] eqn:E0. simpl in E1, E2. rewrite E1.
  injection E2 as ->. destruct r0 as [e|a]; [done|]. apply Hk.
Qed.

Lemma pure_Linear_forward (m : Linear F) x : pure_call (R := R) (Linear_forward m x).
Proof.
  unfold Linear_forward.
  destruct (has_width _ _); [apply pure_ret|apply pure_throw].
Qed.

Lemma pure_index_columns C (t : list (list F)) idx :
  pure_call (R := R) (index_columns C t idx).
Proof.
  unfold index_columns.
  destruct (forallb _ _); [apply pure_ret|apply pure_throw].
Qed.

Lemma pure_gru_stack (m : nnGRU F) :
  forall (cs : list (GRUCell F)) xs h0,
    rnn_training m && fltb fzero (rnn_dropout m) = false \/ length cs <= 1 ->
    pure_call (gru_stack m cs xs h0).
Proof.
  induction cs as [|c cs IH]; intros xs h0 Hq; [apply pure_ret|].
  destruct h0 as [|h h0]; [apply pure_throw|].
  cbn [gru_stack].
  destruct (run_layer c (rnn_hidden_size m) xs h) as [ys hT].
  apply pure_bind.
  - destruct cs as [|c' cs']; [apply pure_ret|].
    destruct Hq as [-> | Hlen]; [apply pure_ret|]. simpl in Hlen. lia.
  - intros ys'. apply pure_bind.
    + apply IH. destruct Hq as [Hq|Hlen]; [by left|]. right. simpl in Hlen.
      lia.
    + intros [out hs]. apply pure_ret.
Qed.

Lemma pure_score (self : GRU F) e hidden :
  stack_quiet (gru self) -> pure_call (score self e hidden).
Proof.
  intros Hq. unfold score. apply pure_bind.
  - unfold nnGRU_forward.
    destruct (_ && _); [by apply pure_gru_stack|apply pure_throw].
  - intros [output hs]. apply pure_bind; [apply pure_Linear_forward|].
    intros logit. apply pure_ret.
Qed.

(** With the training flag off and the stack's dropout off (or nothing
    to drop between layers) [forward] neither draws a coin nor changes
    anything: two calls on the same arguments return the same logits
    and hidden state. *)
Lemma forward_inference_deterministic (self : GRU F) e target hidden :
  training self = false -> stack_quiet (gru self) ->
  pure_call (forward self e target hidden).
Proof.
  intros Htr Hq. unfold forward. apply pure_bind.
  - unfold input_dropout. rewrite Htr. apply pure_ret.
  - intros e'. apply pure_bind; [by apply pure_score|].
    intros [logit hs]. apply pure_bind; [|intros; apply pure_ret].
    unfold sample. rewrite Htr. apply pure_ret.
Qed.

(** [switch_mode] into inference mode turns the stack's dropout off. *)
Lemma switched_to_inference_quiet (self : GRU F) :
  training self = true ->
  training (switched self) = false /\ stack_quiet (gru (switched self)).
Proof. intros Htr. split; simpl; rewrite Htr; [done|by left]. Qed.

(** [__init__] with [training=False] does not: the stack it creates is
    in training mode all the same. *)
Lemma init_inference_not_quiet input_size hidden_size output_size num_layers
    (dropout_hidden dropout_input : F) batch_size use_cuda (w : world F R) :
  2 <= num_layers -> fltb fzero dropout_hidden = true ->
  fleb fzero dropout_hidden = true -> fleb dropout_hidden fone = true ->
  1 <= hidden_size -> (use_cuda = true -> cuda_available w = true) ->
  exists self w',
    GRU_init input_size hidden_size output_size num_layers dropout_hidden
      dropout_input batch_size use_cuda false w = (inr self, w')
    /\ training self = false
    /\ ~ stack_quiet (gru self)
    /\ ~ mode_consistent self.
Proof.
  intros HL Hp Hlo Hhi HH Hdevice.
  destruct (GRU_init_ok input_size hidden_size output_size num_layers
              dropout_hidden dropout_input batch_size use_cuda false w
              Hlo Hhi HH ltac:(lia) Hdevice)
    as (self & w' & Hrun & Hhp & Htr & _ & Hwf & _ & Hrt & Hrd).
  exists self, w'. split; [done|]. split; [done|]. split.
  - destruct Hwf as (_ & _ & _ & _ & _ & _ & _ & _ & Hlen & _).
    intros [Hoff|Hone].
    + by rewrite Hrt, Hrd, Hp in Hoff.
    + rewrite Hlen, Hhp in Hone. simpl in Hone. lia.
  - intros [_ Hm]. by rewrite Hrt, Htr in Hm.
Qed.

End Determinism.

(** * The layer at work on the fixed-point instance *)

Import Fixed.
Import IEEE.

(** The example layers are what the constructor returns. *)
Lemma example_layers_built :
  example_layer true false = (inr layer_cuda, world_cuda)
  /\ example_layer false true = (inr layer_train, world_train)
  /\ example_layer false false = (inr layer_eval, world_train)
  /\ stacked_layer false
     = (inr layer_stacked_eval, built_world (stacked_layer false)).
Proof. split_and!; vm_compute; reflexivity. Qed.

Lemma half_one_neq_zero : fone <> (fzero : Z).
Proof. discriminate. Qed.

Lemma cuda_buffer_ready : buffer_ready layer_cuda world_cuda.
Proof.
  exists (Storage Cuda [[7; 7; 7; 7; 7]; [7; 7; 7; 7; 7]]%Z).
  split; [reflexivity|]. split; [|reflexivity].
  split; [reflexivity|]. by repeat constructor.
Qed.

Lemma valid_index_2_4 : valid_index 2 5 [2; 4]%Z.
Proof. split; [reflexivity|]. repeat constructor; lia. Qed.

Lemma valid_index_0_4 : valid_index 2 5 [0; 4]%Z.
Proof. split; [reflexivity|]. repeat constructor; lia. Qed.

Lemma layer_train_wf : wf_layer layer_train.
Proof.
  unfold wf_layer, shape2. simpl. unfold wf_cell, shape2. simpl.
  split_and!; try reflexivity; try lia; by repeat constructor.
Qed.

Lemma layer_eval_wf : wf_layer layer_eval.
Proof.
  unfold wf_layer, shape2. simpl. unfold wf_cell, shape2. simpl.
  split_and!; try reflexivity; try lia; by repeat constructor.
Qed.

Lemma example_batch_shape : shape2 2 4 example_batch.
Proof. split; [reflexivity|]. by repeat constructor. Qed.

Lemma example_hidden1_shape : shape3 1 2 3 example_hidden1.
Proof.
  split; [reflexivity|]. repeat constructor.
Qed.

(** C1 on the example layer: [2; 4] and then [0; 4]. *)
Lemma emb_one_hot_no_leak_witness :
  fone <> (fzero : Z)
  /\ buffer_ready layer_cuda world_cuda
  /\ valid_index 2 5 [2; 4]%Z /\ valid_index 2 5 [0; 4]%Z
  /\ exists l1 w1 t1 l2 w2 t2,
       emb layer_cuda [2; 4]%Z false world_cuda = (inr l1, w1)
       /\ read w1 l1 = Some t1
       /\ emb layer_cuda [0; 4]%Z false w1 = (inr l2, w2)
       /\ read w2 l2 = Some t2
       /\ is_one_hot 2 5 [2; 4]%Z t1 /\ is_one_hot 2 5 [0; 4]%Z t2
       /\ entry t2 0 2 = Some 0%Z.
Proof.
  split; [exact half_one_neq_zero|].
  split; [exact cuda_buffer_ready|].
  split; [exact valid_index_2_4|]. split; [exact valid_index_0_4|].
  destruct (emb_one_hot_no_leak layer_cuda world_cuda [2; 4]%Z [0; 4]%Z
              false false half_one_neq_zero cuda_buffer_ready
              valid_index_2_4 valid_index_0_4)
    as (l1 & w1 & t1 & l2 & w2 & t2 & R1 & T1 & R2 & T2 & O1 & O2 & _ & _ & L).
  exists l1, w1, t1, l2, w2, t2.
  split; [exact R1|]. split; [exact T1|]. split; [exact R2|].
  split; [exact T2|]. split; [exact O1|]. split; [exact O2|].
  apply (L 0 2%Z); [reflexivity|discriminate].
Defined.

(** C8 on the example layer: item 5 does not exist. *)
Lemma emb_out_of_range_fails_witness :
  buffer_ready layer_cuda world_cuda
  /\ Exists (fun k => ~ (0 <= k < Z.of_nat 5)%Z) [2; 5]%Z
  /\ exists w', emb layer_cuda [2; 5]%Z false world_cuda
                = (inl RangeError, w').
Proof.
  assert (Hbad : Exists (fun k => ~ (0 <= k < Z.of_nat 5)%Z) [2; 5]%Z).
  { apply Exists_cons_tl, Exists_cons_hd. lia. }
  split; [exact cuda_buffer_ready|]. split; [exact Hbad|].
  destruct (emb_out_of_range_fails layer_cuda world_cuda [2; 5]%Z false
              cuda_buffer_ready Hbad) as (e & w' & Hrun & He).
  exists w'. rewrite Hrun. f_equal. f_equal. apply He. simpl. lia.
Defined.

(** C10 on the example layer. *)
Lemma emb_result_aliases_buffer_witness :
  fone <> (fzero : Z)
  /\ buffer_ready layer_cuda world_cuda
  /\ valid_index 2 5 [2; 4]%Z /\ valid_index 2 5 [0; 4]%Z
  /\ exists l1 w1 l2 w2,
       emb layer_cuda [2; 4]%Z false world_cuda = (inr l1, w1)
       /\ emb layer_cuda [0; 4]%Z false w1 = (inr l2, w2)
       /\ l2 = l1
       /\ read w1 l1 = Some [[0; 0; 2; 0; 0]; [0; 0; 0; 0; 2]]%Z
       /\ read w2 l1 = Some [[2; 0; 0; 0; 0]; [0; 0; 0; 0; 2]]%Z.
Proof.
  split; [exact half_one_neq_zero|].
  split; [exact cuda_buffer_ready|].
  split; [exact valid_index_2_4|]. split; [exact valid_index_0_4|].
  destruct (emb_result_aliases_buffer layer_cuda world_cuda [2; 4]%Z
              [0; 4]%Z false false half_one_neq_zero cuda_buffer_ready
              valid_index_2_4 valid_index_0_4)
    as (l1 & w1 & l2 & w2 & R1 & R2 & _ & E & T1 & T2 & _).
  exists l1, w1, l2, w2.
  split; [exact R1|]. split; [exact R2|]. split; [exact E|].
  split; [exact T1|exact T2].
Defined.

(** C2 on the example layer, in training and in inference mode. *)
Lemma forward_shapes_witness :
  wf_layer layer_train /\ shape2 2 4 example_batch
  /\ shape3 1 2 3 example_hidden1 /\ valid_index 2 5 [2; 4]%Z
  /\ (exists logit hidden' w',
        forward layer_train example_batch [2; 4]%Z example_hidden1
          world_train = (inr (logit, hidden'), w')
        /\ shape3 1 2 3 hidden' /\ shape2 2 2 logit)
  /\ (exists logit hidden' w',
        forward layer_eval example_batch [] example_hidden1 world_train
        = (inr (logit, hidden'), w')
        /\ shape3 1 2 3 hidden' /\ shape2 2 5 logit).
Proof.
  split; [exact layer_train_wf|]. split; [exact example_batch_shape|].
  split; [exact example_hidden1_shape|]. split; [exact valid_index_2_4|].
  split.
  - destruct (forward_shapes layer_train 2 example_batch [2; 4]%Z
                example_hidden1 world_train layer_train_wf
                example_batch_shape example_hidden1_shape
                (fun _ => valid_index_2_4))
      as (logit & hidden' & w' & Hrun & Hh & Ht & _).
    exists logit, hidden', w'. split; [exact Hrun|]. split; [exact Hh|].
    exact (Ht eq_refl).
  - destruct (forward_shapes layer_eval 2 example_batch [] example_hidden1
                world_train layer_eval_wf example_batch_shape
                example_hidden1_shape)
      as (logit & hidden' & w' & Hrun & Hh & _ & He); [discriminate|].
    exists logit, hidden', w'. split; [exact Hrun|]. split; [exact Hh|].
    exact (He eq_refl).
Defined.

(** C3 on the example layer, with both sessions aiming at item 4. *)
Lemma forward_samples_target_columns_witness :
  training layer_train = true /\ wf_layer layer_train
  /\ valid_index 2 5 [4; 4]%Z
  /\ exists logit hidden' w',
       forward layer_train example_batch [4; 4]%Z example_hidden1 world_train
       = (inr (logit, hidden'), w')
       /\ entry logit 0 0 = entry logit 0 1
       /\ entry logit 1 0 = entry logit 1 1
       /\ is_Some (entry logit 1 1).
Proof.
  assert (Hv : valid_index 2 5 [4; 4]%Z).
  { split; [reflexivity|]. repeat constructor; lia. }
  split; [reflexivity|]. split; [exact layer_train_wf|]. split; [exact Hv|].
  destruct (forward_samples_target_columns layer_train 2 example_batch
              [4; 4]%Z example_hidden1 world_train eq_refl layer_train_wf
              example_batch_shape example_hidden1_shape Hv)
    as (e' & w0 & full & hidden' & w' & logit & _ & _ & _ & Hrun & _
        & Hcol & Hsame).
  exists logit, hidden', w'. split; [exact Hrun|].
  split; [exact (Hsame 0 0 1 eq_refl)|].
  split; [exact (Hsame 1 0 1 eq_refl)|].
  apply (Hcol 1 1 4%Z); [lia|reflexivity].
Defined.

(** C4 as amended, on the example layer with input dropout one half and
    the coins tails, heads: the first session is zeroed, the second
    survives; in inference mode nothing is dropped. *)
Lemma input_dropout_rowwise_witness :
  training layer_drop = true
  /\ Forall (fun x : Z => fmul x fzero = fzero) [2; 0; 0; 0]%Z
  /\ Forall (fun x : Z => fmul x fone = x) [0; 2; 0; 0]%Z
  /\ input_dropout layer_drop example_batch
       (with_gen world_train [false; true])
     = (inr (mask_rows [false; true] example_batch),
        with_gen (with_gen world_train [false; true]) [])
  /\ mask_rows [false; true] example_batch !! 0 = Some [0; 0; 0; 0]%Z
  /\ mask_rows [false; true] example_batch !! 1 = Some [0; 2; 0; 0]%Z
  /\ training layer_eval = false
  /\ input_dropout layer_eval example_batch
       (with_gen world_train [false; true])
     = (inr example_batch, with_gen world_train [false; true]).
Proof.
  assert (Hzero : Forall (fun x : Z => fmul x fzero = fzero) [2; 0; 0; 0]%Z)
    by (repeat constructor).
  assert (Hone : Forall (fun x : Z => fmul x fone = x) [0; 2; 0; 0]%Z)
    by (repeat constructor).
  destruct (input_dropout_rowwise layer_drop example_batch [2; 4]%Z
              example_hidden1 (with_gen world_train [false; true]))
    as [Htrain _].
  destruct (input_dropout_rowwise layer_eval example_batch []
              example_hidden1 (with_gen world_train [false; true]))
    as [_ Heval].
  split; [reflexivity|]. split; [exact Hzero|]. split; [exact Hone|].
  destruct (Htrain eq_refl) as (coins & g' & Hd & _ & Hrun & Hrows & _).
  vm_compute in Hd. injection Hd as <- <-.
  destruct (Hrows 0 [2; 0; 0; 0]%Z eq_refl) as (c0 & Hc0 & _ & _ & Hdrop).
  destruct (Hrows 1 [0; 2; 0; 0]%Z eq_refl) as (c1 & Hc1 & _ & Hkeep & _).
  injection Hc0 as <-. injection Hc1 as <-.
  split; [exact Hrun|]. split; [exact (Hdrop eq_refl Hzero)|].
  split; [exact (Hkeep eq_refl Hone)|].
  split; [reflexivity|]. destruct (Heval eq_refl) as [Hrun' _].
  exact Hrun'.
Defined.

(** C4 as stated fails on floats.  The layer is built in training mode
    with input dropout one half; the session's first feature is infinite
    and its coin comes up tails.  The row that goes on is neither the
    original row nor the all-zero row: its first entry is NaN. *)
Lemma input_dropout_infinite_row :
  exists self w row w',
    IEEE.float_layer = (inr self, w)
    /\ training self = true
    /\ input_dropout self IEEE.infinite_batch (with_gen w [false])
       = (inr [row], w')
    /\ row <> [PrimFloat.infinity; PrimFloat.one]
    /\ row <> [PrimFloat.zero; PrimFloat.zero]
    /\ PrimFloat.is_nan (hd PrimFloat.zero row) = true.
Proof.
  eexists _, _, _, _. split; [vm_compute; reflexivity|].
  split; [reflexivity|]. split; [vm_compute; reflexivity|].
  split; [|split; [|reflexivity]].
  - intros E.
    apply (f_equal (fun r => PrimFloat.is_nan (hd PrimFloat.zero r))) in E.
    vm_compute in E. discriminate E.
  - intros E.
    apply (f_equal (fun r => PrimFloat.is_nan (hd PrimFloat.zero r))) in E.
    vm_compute in E. discriminate E.
Qed.

(** C6 as amended, on a layer whose components agree with its mode. *)
Lemma switch_mode_twice_witness :
  mode_consistent layer_train
  /\ exists self1 w1 self2 w2,
       switch_mode layer_train world_train = (inr self1, w1)
       /\ switch_mode self1 w1 = (inr self2, w2)
       /\ self2 = layer_train.
Proof.
  assert (Hm : mode_consistent layer_train).
  { split; [|reflexivity]. by repeat constructor. }
  split; [exact Hm|].
  destruct (switch_mode_twice layer_train world_train)
    as (self1 & w1 & self2 & w2 & R1 & R2 & _ & _ & _ & Hback).
  exists self1, w1, self2, w2. split; [exact R1|]. split; [exact R2|].
  exact (Hback Hm).
Defined.

(** C9 on two layers of the same dimensions, in different worlds. *)
Lemma init_hidden_zeros_witness :
  num_layers layer_cuda = num_layers layer_train
  /\ batch_size layer_cuda = batch_size layer_train
  /\ hidden_size layer_cuda = hidden_size layer_train
  /\ init_hidden layer_train world_train = (inr example_hidden1, world_train)
  /\ fst (init_hidden layer_cuda world_cuda)
     = fst (init_hidden layer_train world_train).
Proof.
  destruct (init_hidden_zeros layer_train world_train)
    as (Hrun & _ & _ & Hsame).
  split; [reflexivity|]. split; [reflexivity|]. split; [reflexivity|].
  split; [exact Hrun|]. apply Hsame; reflexivity.
Defined.

(** C6 as stated fails.  A weight the caller froze is tracked again after
    two switches; and a layer built with [training=False] (in a world
    that equals the one of the training example), whose parameters are all
    tracked, has none of them tracked after two switches.  The mode flag
    is restored both times. *)
Lemma switch_mode_twice_changes_flags :
  (exists self1 w1 self2 w2,
     switch_mode (freeze_h2o_weight layer_train) world_train = (inr self1, w1)
     /\ switch_mode self1 w1 = (inr self2, w2)
     /\ training self2 = training (freeze_h2o_weight layer_train)
     /\ parameters (freeze_h2o_weight layer_train) !! 0 = Some false
     /\ parameters self2 !! 0 = Some true)
  /\ example_layer false false = (inr layer_eval, world_train)
  /\ (exists self1 w1 self2 w2,
        switch_mode layer_eval world_train = (inr self1, w1)
        /\ switch_mode self1 w1 = (inr self2, w2)
        /\ training self2 = training layer_eval
        /\ parameters layer_eval = [true; true; true; true; true; true]
        /\ parameters self2 = [false; false; false; false; false; false]).
Proof.
  split.
  - eexists _, _, _, _. split; [reflexivity|]. split; [reflexivity|].
    split; [reflexivity|]. split; reflexivity.
  - split; [vm_compute; reflexivity|].
    eexists _, _, _, _. split; [reflexivity|]. split; [reflexivity|].
    split; [reflexivity|]. split; reflexivity.
Qed.

(** C5 at the failing input: a two-layer stack with hidden dropout one
    half, built with [training=False].  The training flag is off, yet two
    successive calls of [forward] on the same batch and hidden state
    return different logits and different hidden states, because the
    stack still drops out between its layers. *)
Lemma forward_inference_after_init_differs :
  GRU_init 4 3 5 2 1%Z 0%Z 2 false false (world0 (alternating 90))
  = (inr layer_stacked_eval, built_world (stacked_layer false))
  /\ training layer_stacked_eval = false
  /\ rnn_training (gru layer_stacked_eval) = true
  /\ exists r1 w1 r2 w2,
       forward layer_stacked_eval example_batch [] example_hidden
         world_stacked = (inr r1, w1)
       /\ forward layer_stacked_eval example_batch [] example_hidden w1
          = (inr r2, w2)
       /\ fst r1 <> fst r2 /\ snd r1 <> snd r2.
Proof.
  split; [vm_compute; reflexivity|].
  split; [reflexivity|]. split; [reflexivity|].
  eexists _, _, _, _. split; [vm_compute; reflexivity|].
  split; [vm_compute; reflexivity|]. split; discriminate.
Qed.

(** * Further properties of the layer *)

(** ** What the constructor leaves behind *)

Section InitMore.
Context {F R : Type} `{Scalar F} `{Random F R}.

(** On arguments [nn.GRU] accepts (dropout_hidden in [0, 1], at least
    one hidden unit and one layer), with the accelerator there when
    [use_cuda] asks for it, [__init__] (lines 8-44) returns a layer and
    uses [training] for the stored flag only: every parameter is tracked
    by autograd and the recurrent stack is in training mode.  So the new
    layer is mode-consistent exactly when it was built with
    [training=True]. *)
Theorem init_mode_consistent_iff input_size hidden_size output_size
    num_layers (dropout_hidden dropout_input : F) batch_size use_cuda mode
    (w : world F R) :
  fleb fzero dropout_hidden = true -> fleb dropout_hidden fone = true ->
  1 <= hidden_size -> 1 <= num_layers ->
  (use_cuda = true -> cuda_available w = true) ->
  exists self w',
    GRU_init input_size hidden_size output_size num_layers dropout_hidden
      dropout_input batch_size use_cuda mode w = (inr self, w')
    /\ training self = mode
    /\ Forall (fun g => g = true) (parameters self)
    /\ rnn_training (gru self) = true
    /\ (mode_consistent self <-> mode = true).
Proof.
  intros Hlo Hhi HH HL Hdevice.
  destruct (GRU_init_ok input_size hidden_size output_size num_layers
              dropout_hidden dropout_input batch_size use_cuda mode w
              Hlo Hhi HH HL Hdevice)
    as (self & w' & Hrun & _ & Htr & _ & _ & Hpar & Hrt & _).
  exists self, w'. split_and!; try done. unfold mode_consistent.
  rewrite Htr, Hrt. split.
  - by intros [_ <-].
  - intros ->. by split.
Qed.

(** On such arguments the layer is ready for use: its attributes are the
    constructor's arguments, its scratch buffer is a (B, C) tensor of the
    store (on the device with [use_cuda]), its parameter tensors have the
    shapes [forward] relies on, and it has 2 + 4 * num_layers
    parameters. *)
Theorem init_layer_usable input_size hidden_size output_size num_layers
    (dropout_hidden dropout_input : F) batch_size use_cuda mode
    (w : world F R) :
  fleb fzero dropout_hidden = true -> fleb dropout_hidden fone = true ->
  1 <= hidden_size -> 1 <= num_layers ->
  (use_cuda = true -> cuda_available w = true) ->
  exists self w',
    GRU_init input_size hidden_size output_size num_layers dropout_hidden
      dropout_input batch_size use_cuda mode w = (inr self, w')
    /\ hp self = Hyper input_size hidden_size output_size num_layers
                   dropout_input dropout_hidden batch_size use_cuda
    /\ buffer_ready self w'
    /\ wf_layer self
    /\ length (parameters self) = 2 + 4 * num_layers.
Proof.
  intros Hlo Hhi HH HL Hdevice.
  destruct (GRU_init_ok input_size hidden_size output_size num_layers
              dropout_hidden dropout_input batch_size use_cuda mode w
              Hlo Hhi HH HL Hdevice)
    as (self & w' & Hrun & Hhp & _ & Hready & Hwf & _ & _ & _).
  exists self, w'. split_and!; try done.
  destruct Hwf as (_ & _ & _ & _ & _ & _ & _ & _ & Hlen & _).
  rewrite Hhp in Hlen. simpl in Hlen.
  unfold parameters. rewrite length_app. simpl. f_equal. f_equal.
  rewrite <- Hlen. clear. induction (cells (gru self)) as [|c cs IH]; [done|].
  cbn [map concat]. rewrite length_app, IH. simpl. lia.
Qed.

(** [__init__] raises, and returns no layer, when [nn.GRU] refuses its
    arguments: a dropout_hidden outside [0, 1], no hidden unit or no
    layer.  By then the scratch buffer has been allocated. *)
Theorem init_rejects_bad_arguments input_size hidden_size output_size
    num_layers (dropout_hidden dropout_input : F) batch_size mode
    (w : world F R) :
  fleb fzero dropout_hidden && fleb dropout_hidden fone = false
  \/ hidden_size = 0 \/ num_layers = 0 ->
  exists w',
    GRU_init input_size hidden_size output_size num_layers dropout_hidden
      dropout_input batch_size false mode w = (inl ValueError, w')
    /\ length (heap w') = S (length (heap w)).
Proof.
  intros Hbad. unfold GRU_init.
  set (h := Hyper _ _ _ _ _ _ _ _).
  destruct (init_emb_ok h w ltac:(done))
    as (l & s & w1 & Hl & Hs & _ & _ & _).
  assert (Hlen1 : length (heap w1) = S (length (heap w))).
  { unfold init_emb, h in Hl. simpl in Hl.
    unfold FloatTensor, alloc, bind, get_heap, put_heap, ret in Hl.
    simpl in Hl. injection Hl as _ <-. simpl. rewrite length_app. simpl.
    lia. }
  destruct (Linear_init_ok hidden_size output_size w1)
    as (m & w2 & Hm & Hh2 & _).
  rewrite (bind_ok _ _ _ _ _ Hl), (bind_ok _ _ _ _ _ Hm).
  exists w2. split; [|congruence].
  apply bind_fail. unfold nnGRU_init.
  destruct (fleb fzero dropout_hidden && fleb dropout_hidden fone) eqn:Hd;
    [|done].
  cbn [negb]. destruct Hbad as [Hbad|[->| ->]]; [done| |].
  - done.
  - by rewrite orb_true_r.
Qed.

End InitMore.

(** ** More about [emb] *)

Section EmbMore.
Context {F R : Type} `{Scalar F} `{Random F R}.

Lemma preserves_ret {A} (P : world F R -> Prop) (a : A) :
  preserves P (ret a).
Proof. by intros w HP. Qed.

Lemma preserves_throw {A} (P : world F R -> Prop) (e : error) :
  preserves P (throw (A := A) e).
Proof. by intros w HP. Qed.

Lemma preserves_bind {A B} (P : world F R -> Prop) (c : M F R A)
    (k : A -> M F R B) :
  preserves P c -> (forall a, preserves P (k a)) -> preserves P (bind c k).
Proof.
  intros Hc Hk w HP. unfold bind. specialize (Hc w HP).
  destruct (c w) as [[e|a] w1]; simpl in *; [done|]. by apply Hk.
Qed.

Lemma zero__preserves l B C dev :
  preserves (F := F) (R := R) (holds_buffer l B C dev) (zero_ l).
Proof.
  intros w (s & Hl & [HB HC] & Hd). rewrite (zero__ok w l s Hl).
  unfold holds_buffer. simpl. eexists. split; [by rewrite list_lookup_insert_eq
                     by (by eapply lookup_lt_Some)|].
  simpl. split; [|done]. split; [by rewrite length_map|].
  apply Forall_fmap. eapply Forall_impl; [exact HC|].
  intros row Hrow. simpl. by rewrite length_map.
Qed.

Lemma scatter_elem_preserves l B C dev i k (src : F) :
  preserves (R := R) (holds_buffer l B C dev) (scatter_elem l i k src).
Proof.
  intros w (s & Hl & [HB HC] & Hd). unfold scatter_elem.
  rewrite (bind_ok _ _ _ _ _ (deref_ok _ _ _ Hl)).
  destruct (rows s !! i) as [row|] eqn:Hi;
    [|by exists s].
  destruct (_ && _); [|by exists s].
  rewrite (assign_ok w l s _ Hl). unfold holds_buffer. simpl.
  eexists. split; [by rewrite list_lookup_insert_eq
                     by (by eapply lookup_lt_Some)|].
  simpl. split; [|done]. split; [by rewrite length_insert|].
  apply Forall_insert; [done|]. rewrite length_insert.
  rewrite Forall_lookup in HC. by apply (HC i).
Qed.

Lemma scatter_row_preserves l B C dev i (src : F) ks :
  preserves (R := R) (holds_buffer l B C dev) (scatter_row l i ks src).
Proof.
  induction ks as [|k ks IH]; simpl; [apply preserves_ret|].
  apply preserves_bind; [apply scatter_elem_preserves|done].
Qed.

Lemma scatter_loop_preserves l B C dev (src : F) index :
  forall i,
    preserves (R := R) (holds_buffer l B C dev) (scatter_loop l i index src).
Proof.
  induction index as [|ks index IH]; intros i; simpl; [apply preserves_ret|].
  apply preserves_bind; [apply scatter_row_preserves|]. intros _. apply IH.
Qed.

Lemma scatter__preserves l B C dev (src : F) index :
  preserves (R := R) (holds_buffer l B C dev) (scatter_ l index src).
Proof.
  intros w Hw. pose proof Hw as (s & Hl & _). unfold scatter_.
  rewrite (bind_ok _ _ _ _ _ (deref_ok _ _ _ Hl)).
  destruct (decide _); [by apply scatter_loop_preserves|done].
Qed.

(** [emb] keeps the scratch buffer a (B, C) tensor on its device on every
    input, also when it raises. *)
Lemma emb_preserves_ready (self : GRU F) input volatile :
  preserves (R := R) (buffer_ready self) (emb self input volatile).
Proof.
  change (buffer_ready self)
    with (holds_buffer (F := F) (R := R) (onehot_buffer self)
            (batch_size self) (output_size self) (use_cuda self)).
  unfold emb. apply preserves_bind; [apply zero__preserves|]. intros _.
  apply preserves_bind; [apply scatter__preserves|]. intros _.
  destruct (use_cuda self) eqn:Hcu; [|apply preserves_ret].
  intros w Hw. pose proof Hw as (s & Hl & _ & Hd).
  by rewrite (cuda_on_device w _ s Hl (Hd eq_refl)).
Qed.

(** On valid input [emb] (lines 82-100) allocates nothing and writes to
    nothing but its buffer: the store keeps its size, every other tensor
    and the device of the buffer are as before, and generator and output
    are untouched; the handle returned is [self.onehot_buffer]. *)
Theorem emb_changes_only_buffer (self : GRU F) (w : world F R)
    (input : list Z) (volatile : bool) :
  buffer_ready self w ->
  valid_index (batch_size self) (output_size self) input ->
  exists w',
    emb self input volatile w = (inr (onehot_buffer self), w')
    /\ length (heap w') = length (heap w)
    /\ (forall l, l <> onehot_buffer self -> heap w' !! l = heap w !! l)
    /\ placed <$> heap w' !! onehot_buffer self
       = placed <$> heap w !! onehot_buffer self
    /\ gen w' = gen w /\ stdout w' = stdout w /\ junk w' = junk w.
Proof.
  intros (s & Hl & Hsh & Hdev) Hin.
  eexists. split; [by apply (emb_ok self w input volatile s)|]. simpl.
  split_and!; try done.
  - by rewrite length_insert.
  - intros l Hne. by rewrite list_lookup_insert_ne.
  - rewrite list_lookup_insert_eq by (by eapply lookup_lt_Some).
    by rewrite Hl.
Qed.

(** A call of [emb] that raises (an index out of range, too many
    indices) leaves the buffer partly written but intact as a tensor: the
    next call with a valid index vector succeeds and the buffer then
    holds exactly the one-hot encoding of that vector. *)
Theorem emb_recovers_after_failure (self : GRU F) (w : world F R)
    (bad good : list Z) (v1 v2 : bool) :
  buffer_ready self w ->
  valid_index (batch_size self) (output_size self) good ->
  buffer_ready self (snd (emb self bad v1 w))
  /\ exists w2,
       emb self good v2 (snd (emb self bad v1 w))
       = (inr (onehot_buffer self), w2)
       /\ read w2 (onehot_buffer self)
          = Some (one_hot (output_size self) good).
Proof.
  intros Hready Hgood.
  pose proof (emb_preserves_ready self bad v1 w Hready) as Hready1.
  split; [done|].
  destruct Hready1 as (s & Hl & Hsh & Hdev).
  eexists. split; [by apply (emb_ok self _ good v2 s)|].
  by apply read_after_emb.
Qed.

End EmbMore.

(** ** More about [forward] *)

Section ForwardMore.
Context {F R : Type} `{Scalar F} `{Random F R}.

Lemma keeps_ret {A} (a : A) : keeps_store (ret (F := F) (R := R) a).
Proof. by intros w. Qed.

Lemma keeps_throw {A} (e : error) :
  keeps_store (throw (F := F) (R := R) (A := A) e).
Proof. by intros w. Qed.

Lemma keeps_bind {A B} (c : M F R A) (k : A -> M F R B) :
  keeps_store c -> (forall a, keeps_store (k a)) -> keeps_store (bind c k).
Proof.
  intros Hc Hk w. unfold bind. destruct (Hc w) as (Hh & Hs & Hj).
  destruct (c w) as [[e|a] w1]; simpl in *; [done|].
  destruct (Hk a w1) as (Hh' & Hs' & Hj'). split_and!; congruence.
Qed.

Lemma keeps_mapM {A B} (f : A -> M F R B) (l : list A) :
  (forall a, keeps_store (f a)) -> keeps_store (mapM f l).
Proof.
  intros Hf. induction l as [|a l IH]; simpl; [apply keeps_ret|].
  apply keeps_bind; [apply Hf|]. intros b.
  apply keeps_bind; [apply IH|]. intros bs. apply keeps_ret.
Qed.

Lemma keeps_draw_bernoulli (p : F) :
  keeps_store (R := R) (draw_bernoulli p).
Proof.
  intros w. unfold draw_bernoulli. by destruct (bernoulli1 p (gen w)).
Qed.

Lemma keeps_dropout3 (p : F) ys : keeps_store (R := R) (dropout3 p ys).
Proof.
  unfold dropout3. do 3 (apply keeps_mapM; intros ?).
  unfold dropout_elem. apply keeps_bind; [apply keeps_draw_bernoulli|].
  intros keep. apply keeps_ret.
Qed.

Lemma keeps_gru_stack (m : nnGRU F) :
  forall cs xs h0, keeps_store (R := R) (gru_stack m cs xs h0).
Proof.
  induction cs as [|c cs IH]; intros xs h0; [apply keeps_ret|].
  destruct h0 as [|h h0]; [apply keeps_throw|].
  cbn [gru_stack].
  destruct (run_layer c (rnn_hidden_size m) xs h) as [ys hT].
  apply keeps_bind.
  - destruct cs; [apply keeps_ret|].
    destruct (_ && _); [apply keeps_dropout3|apply keeps_ret].
  - intros ys'. apply keeps_bind; [apply IH|].
    intros [out hs]. apply keeps_ret.
Qed.

Lemma keeps_score (self : GRU F) e hidden :
  keeps_store (R := R) (score self e hidden).
Proof.
  unfold score. apply keeps_bind.
  - unfold nnGRU_forward.
    destruct (_ && _); [apply keeps_gru_stack|apply keeps_throw].
  - intros [output hs]. apply keeps_bind.
    + unfold Linear_forward.
      destruct (has_width _ _); [apply keeps_ret|apply keeps_throw].
    + intros logit. apply keeps_ret.
Qed.

Lemma keeps_sample (self : GRU F) logit target :
  keeps_store (R := R) (sample self logit target).
Proof.
  unfold sample. destruct (training self); [|apply keeps_ret].
  unfold index_columns.
  destruct (forallb _ _); [apply keeps_ret|apply keeps_throw].
Qed.

Lemma keeps_input_dropout (self : GRU F) e :
  keeps_store (R := R) (input_dropout self e).
Proof.
  unfold input_dropout. destruct (training self); [|apply keeps_ret].
  apply keeps_bind; [|intros; apply keeps_ret].
  unfold bernoulli. do 2 (apply keeps_mapM; intros ?).
  apply keeps_draw_bernoulli.
Qed.

(** [forward] (lines 46-80) never writes to a tensor of the store and
    never prints, whatever its arguments and whether it returns or
    raises: every handle, the one-hot buffer included, reads the same
    afterwards.  Only the generator can have moved. *)
Theorem forward_keeps_store (self : GRU F) (embedded : list (list F))
    (target : list Z) (hidden : list (list (list F))) (w : world F R) :
  heap (snd (forward self embedded target hidden w)) = heap w
  /\ stdout (snd (forward self embedded target hidden w)) = stdout w
  /\ forall l, read (snd (forward self embedded target hidden w)) l
               = read w l.
Proof.
  assert (Hk : keeps_store (R := R) (forward self embedded target hidden)).
  { unfold forward. apply keeps_bind; [apply keeps_input_dropout|].
    intros e. apply keeps_bind; [apply keeps_score|].
    intros [logit hs]. apply keeps_bind; [apply keeps_sample|].
    intros logit'. apply keeps_ret. }
  destruct (Hk w) as (Hh & Hs & _). split; [done|]. split; [done|].
  intros l. unfold read. by rewrite Hh.
Qed.

Lemma pure_snd {A} (c : M F R A) (w : world F R) :
  pure_call c -> snd (c w) = w.
Proof. intros Hc. by rewrite (Hc w w). Qed.

(** When the recurrent stack draws no coins (one layer, or its dropout
    off), a training step draws exactly B coins, those of the input
    dropout, and changes nothing else, whether it returns or raises. *)
Theorem forward_train_draws_B_coins (self : GRU F)
    (embedded : list (list F)) (target : list Z)
    (hidden : list (list (list F))) (w : world F R) :
  training self = true -> stack_quiet (gru self) ->
  snd (forward self embedded target hidden w)
  = with_gen w (snd (draw_coins (fsub fone (dropout_input self))
                       (length embedded) (gen w))).
Proof.
  intros Htr Hq. unfold forward.
  rewrite (bind_ok _ _ _ _ _ (input_dropout_train self embedded w Htr)).
  apply pure_snd. apply pure_bind; [by apply pure_score|].
  intros [logit hs]. apply pure_bind; [|intros; apply pure_ret].
  unfold sample. rewrite Htr. apply pure_index_columns.
Qed.

(** The stages of [forward] on well-shaped input, with the sampling left
    open. *)
Lemma forward_stages (self : GRU F) B (e : list (list F)) (target : list Z)
    (hidden : list (list (list F))) (w : world F R) :
  wf_layer self ->
  shape2 B (input_size self) e ->
  shape3 (num_layers self) B (hidden_size self) hidden ->
  exists full hidden' w',
    shape2 B (output_size self) full
    /\ shape3 (num_layers self) B (hidden_size self) hidden'
    /\ heap w' = heap w
    /\ forward self e target hidden w
       = (let* logit := sample self full target in ret (logit, hidden')) w'.
Proof.
  intros Hwf He Hhid.
  assert (Hdrop : exists e' w0,
             input_dropout self e w = (inr e', w0)
             /\ shape2 B (input_size self) e' /\ heap w0 = heap w).
  { destruct (training self) eqn:Htr.
    - eexists _, _. split; [by apply input_dropout_train|]. split; [|done].
      apply mask_rows_shape; [|done].
      rewrite draw_coins_length. by apply shape2_rows in He.
    - eexists _, _. split; [by apply input_dropout_eval|done]. }
  destruct Hdrop as (e' & w0 & Hrun0 & He' & Hh0).
  destruct (score_ok self B e' hidden w0 Hwf He' Hhid)
    as (full & hs & w' & Hrun1 & Hh1 & Hfull & Hhs).
  exists full, hs, w'. split_and!; try done; [congruence|].
  unfold forward.
  by rewrite (bind_ok _ _ _ _ _ Hrun0), (bind_ok _ _ _ _ _ Hrun1).
Qed.

(** In training mode [forward] does not ask for B targets: for a target
    vector of any length n with values in [0, C) it returns logits of
    shape (B, n), one column per target, and the (L, B, H) state. *)
Theorem forward_target_any_length (self : GRU F) B
    (embedded : list (list F)) (target : list Z)
    (hidden : list (list (list F))) (w : world F R) :
  training self = true ->
  wf_layer self ->
  shape2 B (input_size self) embedded ->
  shape3 (num_layers self) B (hidden_size self) hidden ->
  Forall (fun k => (0 <= k < Z.of_nat (output_size self))%Z) target ->
  exists logit hidden' w',
    forward self embedded target hidden w = (inr (logit, hidden'), w')
    /\ shape2 B (length target) logit
    /\ shape3 (num_layers self) B (hidden_size self) hidden'.
Proof.
  intros Htr Hwf He Hhid Hrange.
  destruct (forward_stages self B embedded target hidden w Hwf He Hhid)
    as (full & hidden' & w' & [Hf1 Hf2] & Hhs & _ & Hrun).
  destruct Hwf as (_ & _ & Hout & _).
  unfold sample in Hrun. rewrite Htr, Hout in Hrun.
  rewrite (bind_ok _ _ _ _ _ (index_columns_ok _ full target w' Hrange))
    in Hrun.
  eexists _, _, _. split; [exact Hrun|]. split; [|done]. split.
  - by rewrite length_map.
  - apply Forall_fmap, Forall_forall. intros row _. simpl.
    by rewrite length_map.
Qed.

Lemma in_range_false C (idx : list Z) :
  Exists (fun k => ~ (- Z.of_nat C <= k < Z.of_nat C)%Z) idx ->
  forallb (fun k => (- Z.of_nat C <=? k)%Z && (k <? Z.of_nat C)%Z) idx
  = false.
Proof.
  induction 1 as [k ks Hk|k ks _ IH]; simpl.
  - apply andb_false_iff. left. apply andb_false_iff. lia.
  - by rewrite IH, andb_false_r.
Qed.

(** In training mode a target outside [-C, C) makes [forward] raise the
    range fault, and only after the recurrent update has run: the store
    is untouched and no logits or state come back. *)
Theorem forward_bad_target_fails (self : GRU F) B
    (embedded : list (list F)) (target : list Z)
    (hidden : list (list (list F))) (w : world F R) :
  training self = true ->
  wf_layer self ->
  shape2 B (input_size self) embedded ->
  shape3 (num_layers self) B (hidden_size self) hidden ->
  Exists (fun k => ~ (- Z.of_nat (output_size self) <= k
                      < Z.of_nat (output_size self))%Z) target ->
  exists w',
    forward self embedded target hidden w = (inl RangeError, w')
    /\ heap w' = heap w.
Proof.
  intros Htr Hwf He Hhid Hbad.
  destruct (forward_stages self B embedded target hidden w Hwf He Hhid)
    as (full & hidden' & w' & _ & _ & Hheap & Hrun).
  destruct Hwf as (_ & _ & Hout & _).
  exists w'. split; [|done]. rewrite Hrun.
  apply bind_fail. unfold sample, index_columns. rewrite Htr, Hout.
  by rewrite (in_range_false _ target Hbad).
Qed.

(** In training mode a negative target counts from the end, as Python
    indices do: for targets in [-C, C), of any number n, [forward]
    returns logits of shape (B, n) whose column j is column t[j] of the
    full logit matrix when t[j] >= 0 and column C + t[j] when
    t[j] < 0. *)
Theorem forward_negative_target_wraps (self : GRU F) B
    (embedded : list (list F)) (target : list Z)
    (hidden : list (list (list F))) (w : world F R) :
  training self = true ->
  wf_layer self ->
  shape2 B (input_size self) embedded ->
  shape3 (num_layers self) B (hidden_size self) hidden ->
  Forall (fun k => (- Z.of_nat (output_size self) <= k
                    < Z.of_nat (output_size self))%Z) target ->
  exists e' w0 full hidden' w' logit,
    input_dropout self embedded w = (inr e', w0)
    /\ score self e' hidden w0 = (inr (full, hidden'), w')
    /\ shape2 B (output_size self) full
    /\ forward self embedded target hidden w = (inr (logit, hidden'), w')
    /\ shape2 B (length target) logit
    /\ forall i j k, i < B -> target !! j = Some k ->
         is_Some (entry logit i j)
         /\ ((0 <= k)%Z -> entry logit i j = entry full i (Z.to_nat k))
         /\ ((k < 0)%Z ->
               entry logit i j
               = entry full i (Z.to_nat (Z.of_nat (output_size self) + k))).
Proof.
  intros Htr Hwf He Hhid Hrange.
  assert (Hdrop : exists e' w0,
             input_dropout self embedded w = (inr e', w0)
             /\ shape2 B (input_size self) e').
  { eexists _, _. split; [by apply input_dropout_train|].
    apply mask_rows_shape; [|done].
    rewrite draw_coins_length. by apply shape2_rows in He. }
  destruct Hdrop as (e' & w0 & Hrun0 & He').
  destruct (score_ok self B e' hidden w0 Hwf He' Hhid)
    as (full & hs & w' & Hrun1 & _ & [Hf1 Hf2] & Hhs).
  destruct Hwf as (_ & _ & Hout & _).
  eexists e', w0, full, hs, w', _.
  split; [done|]. split; [done|]. split; [done|]. split.
  { unfold forward.
    rewrite (bind_ok _ _ _ _ _ Hrun0), (bind_ok _ _ _ _ _ Hrun1).
    unfold sample. rewrite Htr, Hout.
    by rewrite (bind_ok _ _ _ _ _
                  (index_columns_wrap_ok _ full target w' Hrange)). }
  split.
  { split; [by rewrite length_map|].
    apply Forall_fmap, Forall_forall. intros row _. simpl.
    by rewrite length_map. }
  intros i j k Hi Hj.
  destruct (lookup_lt_is_Some_2 full i) as [row Hrow]; [lia|].
  rewrite Forall_lookup in Hf2. rewrite Forall_lookup in Hrange.
  pose proof (Hf2 i row Hrow) as Hlen. pose proof (Hrange j k Hj) as Hk.
  simpl in Hk.
  assert (Hw : wrap_index (output_size self) k < length row).
  { unfold wrap_index. destruct (k <? 0)%Z eqn:Hneg.
    - apply Z.ltb_lt in Hneg. lia.
    - apply Z.ltb_ge in Hneg. lia. }
  destruct (lookup_lt_is_Some_2 row _ Hw) as [x Hx].
  assert (Hentry : entry
            (map (fun row0 =>
                    map (fun k0 => nth (wrap_index (output_size self) k0)
                                     row0 fzero) target) full) i j
          = Some x).
  { unfold entry. rewrite list_lookup_fmap, Hrow. simpl.
    rewrite list_lookup_fmap, Hj. simpl. f_equal.
    by apply nth_lookup_Some with (d := fzero) in Hx. }
  rewrite Hentry. split; [by eexists|].
  unfold entry. rewrite Hrow. unfold wrap_index in Hx. split; intros Hsign.
  - replace (k <? 0)%Z with false in Hx
      by (symmetry; apply Z.ltb_ge; lia).
    by rewrite Hx.
  - replace (k <? 0)%Z with true in Hx
      by (symmetry; apply Z.ltb_lt; lia).
    by rewrite Z.add_comm, Hx.
Qed.

End ForwardMore.

(** ** Shape faults and the link between logits and state *)

Section ForwardFaults.
Context {F R : Type} `{Scalar F} `{Random F R}.

Lemma has_width_Forall m (t : list (list F)) :
  has_width m t = true -> Forall (fun r => length r = m) t.
Proof.
  unfold has_width. induction t as [|r t IH]; simpl; [done|].
  intros [Hr Ht]%andb_true_iff. constructor; [by apply Nat.eqb_eq|by apply IH].
Qed.

Lemma has_shape2_shape2 n m (t : list (list F)) :
  has_shape2 n m t = true -> shape2 n m t.
Proof.
  unfold has_shape2. intros [Hn Hm]%andb_true_iff.
  split; [by apply Nat.eqb_eq|by apply has_width_Forall].
Qed.

Lemma has_shape3_shape3 l n m (t : list (list (list F))) :
  has_shape3 l n m t = true -> shape3 l n m t.
Proof.
  unfold has_shape3. intros [Hl Hall]%andb_true_iff.
  split; [by apply Nat.eqb_eq|]. clear Hl.
  induction t as [|x t IH]; simpl in *; [done|].
  apply andb_true_iff in Hall as [Hx Ht].
  constructor; [by apply has_shape2_shape2|by apply IH].
Qed.

Lemma mask_rows_has_shape2 n m (coins : list bool) :
  forall e : list (list F),
    length coins = length e ->
    has_shape2 n m (mask_rows coins e) = has_shape2 n m e.
Proof.
  intros e Hlen. unfold has_shape2, mask_rows.
  rewrite length_zip_with, Hlen, Nat.min_id. f_equal.
  revert e Hlen. unfold has_width.
  induction coins as [|c coins IH]; intros [|row e] Hlen; simpl in *;
    try done.
  rewrite length_map. f_equal. apply IH. lia.
Qed.

(** [forward] refuses what does not fit: an embedded batch whose rows
    are not all [input_size] wide, or a hidden state that is not of shape
    (L, B, H) for the B of that batch, raises the shape fault.  Nothing
    is returned and the store is untouched; in training mode the coins of
    the input dropout have been drawn by then, in inference mode nothing
    has changed at all. *)
Theorem forward_rejects_bad_shapes (self : GRU F)
    (embedded : list (list F)) (target : list Z)
    (hidden : list (list (list F))) (w : world F R) :
  wf_layer self ->
  ~ (shape2 (length embedded) (input_size self) embedded
     /\ shape3 (num_layers self) (length embedded) (hidden_size self) hidden) ->
  exists w',
    forward self embedded target hidden w = (inl ShapeError, w')
    /\ heap w' = heap w
    /\ (training self = false -> w' = w)
    /\ (training self = true ->
          w' = with_gen w (snd (draw_coins (fsub fone (dropout_input self))
                                  (length embedded) (gen w)))).
Proof.
  intros (_ & _ & _ & _ & _ & Hi & Hh & Hn & _) Hbad.
  assert (Hdrop : exists e' w0,
             input_dropout self embedded w = (inr e', w0)
             /\ length e' = length embedded
             /\ has_shape2 (length embedded) (input_size self) e'
                = has_shape2 (length embedded) (input_size self) embedded
             /\ heap w0 = heap w
             /\ (training self = false -> w0 = w)
             /\ (training self = true ->
                   w0 = with_gen w
                          (snd (draw_coins (fsub fone (dropout_input self))
                                  (length embedded) (gen w))))).
  { destruct (training self) eqn:Htr.
    - eexists _, _. split; [by apply input_dropout_train|].
      pose proof (draw_coins_length (fsub fone (dropout_input self))
                    (length embedded) (gen w)) as Hlen.
      split_and!; try done.
      + unfold mask_rows. rewrite length_zip_with. lia.
      + by apply mask_rows_has_shape2.
    - eexists _, _. split; [by apply input_dropout_eval|]. by split_and!. }
  destruct Hdrop as (e' & w0 & Hrun0 & Hlen & Hsame & Hheap & Hev & Htr).
  exists w0. split; [|by split_and!].
  unfold forward. rewrite (bind_ok _ _ _ _ _ Hrun0).
  apply bind_fail. unfold score. apply bind_fail.
  unfold nnGRU_forward. cbn [forallb]. rewrite Hi, Hh, Hn, Hlen, Hsame.
  destruct (has_shape2 _ _ embedded && true && has_shape3 _ _ _ hidden)
    eqn:Hc; [|done].
  exfalso. apply Hbad.
  apply andb_true_iff in Hc as [Hc1 Hc2].
  rewrite andb_true_r in Hc1.
  split; [by apply has_shape2_shape2|by apply has_shape3_shape3].
Qed.

Lemma bind_inv {A B} (c : M F R A) (k : A -> M F R B) w b w' :
  bind c k w = (inr b, w') ->
  exists a w1, c w = (inr a, w1) /\ k a w1 = (inr b, w').
Proof.
  unfold bind. destruct (c w) as [[e|a] w1]; [done|]. by exists a, w1.
Qed.

(** With one time step, the output of the stack is the final state of
    its last layer. *)
Lemma gru_stack_top (m : nnGRU F) :
  forall cs x h0 (w w' : world F R) out hs,
    cs <> [] ->
    gru_stack m cs [x] h0 w = (inr (out, hs), w') ->
    exists top, last hs = Some top /\ out = [top].
Proof.
  induction cs as [|c cs IH]; intros x h0 w w' out hs Hne Hrun; [done|].
  destruct h0 as [|h h0]; [done|].
  cbn [gru_stack run_layer] in Hrun.
  apply bind_inv in Hrun as (ys & w1 & Hys & Hrun).
  apply bind_inv in Hrun as ([out' hs'] & w2 & Hrec & Hret).
  injection Hret as <- <- <-.
  destruct cs as [|c' cs'].
  - injection Hys as <- <-. injection Hrec as <- <- <-.
    by eexists.
  - assert (Hone : exists y, ys = [y]).
    { destruct (_ && _).
      - destruct (dropout3_ok (rnn_dropout m)
                    [gru_cell c (rnn_hidden_size m) x h] w)
          as (ys' & w1' & Hd & _ & Hlen & _).
        rewrite Hd in Hys. injection Hys as <- <-.
        destruct ys' as [|y [|y' ys']]; try done. by exists y.
      - injection Hys as <- <-. by eexists. }
    destruct Hone as [y ->].
    destruct (IH y h0 w1 w2 out' hs' ltac:(done) Hrec) as (top & Hlast & ->).
    exists top. split; [|done].
    destruct hs' as [|h' hs']; [done|]. by rewrite last_cons_cons.
Qed.

(** The scores are a function of the state returned with them: on valid
    input the full (B, C) logit matrix that [forward] computes before the
    sampling (lines 64-75) is the output head, tanh of the affine map
    [h2o], applied to the new state of the top layer, which is the last
    entry of the returned hidden state. *)
Theorem score_from_top_state (self : GRU F) B (e : list (list F))
    (hidden : list (list (list F))) (w : world F R) :
  wf_layer self ->
  shape2 B (input_size self) e ->
  shape3 (num_layers self) B (hidden_size self) hidden ->
  exists full hidden' w' top,
    score self e hidden w = (inr (full, hidden'), w')
    /\ last hidden' = Some top
    /\ full = map (fun row =>
                     map ftanh (affine (value (weight (h2o self)))
                                  (value (bias (h2o self))) row)) top.
Proof.
  intros Hwf He Hhid.
  destruct (score_ok self B e hidden w Hwf He Hhid)
    as (full & hs & w' & Hrun & _ & _ & _).
  destruct Hwf as (HL & _ & _ & _ & _ & _ & _ & _ & Hlen & _).
  pose proof Hrun as Hrun'. unfold score in Hrun'.
  apply bind_inv in Hrun' as ([out hs0] & w1 & Hgru & Hrest).
  apply bind_inv in Hrest as (logit & w2 & Hlin & Hret).
  injection Hret as <- <- <-.
  unfold nnGRU_forward in Hgru. destruct (_ && _); [|done].
  apply gru_stack_top in Hgru as (top & Hlast & ->).
  - exists (map (map ftanh) logit), hs0, w2, top.
    split; [done|]. split; [done|].
    cbn [concat] in Hlin. rewrite app_nil_r in Hlin.
    unfold Linear_forward in Hlin. destruct (has_width _ _); [|done].
    injection Hlin as <- <-. by rewrite map_map.
  - intros Hnil. rewrite Hnil in Hlen. simpl in Hlen. lia.
Qed.

End ForwardFaults.

(** ** More about [switch_mode] *)

Section ModeMore.
Context {F R : Type} `{Scalar F} `{Random F R}.

Lemma switched_consistent (self : GRU F) : mode_consistent (switched self).
Proof.
  split; [|done]. rewrite parameters_switched. by apply Forall_replicate.
Qed.

(** [switch_mode] (lines 119-135) changes flags only: the value of every
    parameter tensor, the sizes and the dropout probability of the stack
    stay as they were.  It prints exactly one line, which names the mode
    switched into. *)
Theorem switch_mode_keeps_weights (self : GRU F) (w : world F R) :
  exists self' w',
    switch_mode self w = (inr self', w')
    /\ value (weight (h2o self')) = value (weight (h2o self))
    /\ value (bias (h2o self')) = value (bias (h2o self))
    /\ map GRUCell_values (cells (gru self'))
       = map GRUCell_values (cells (gru self))
    /\ rnn_dropout (gru self') = rnn_dropout (gru self)
    /\ rnn_num_layers (gru self') = rnn_num_layers (gru self)
    /\ stdout w'
       = stdout w ++ [if training self
                      then "Switching into Testing mode."%string
                      else "Switching into Training mode."%string].
Proof.
  exists (switched self),
    (World (heap w) (gen w) (junk w)
       (stdout w ++ [if training self
                     then "Switching into Testing mode."%string
                     else "Switching into Training mode."%string])
       (cuda_available w)).
  split; [|split_and!; try done].
  - unfold switch_mode, bind, print, ret, switched. simpl.
    by destruct (training self).
  - simpl. rewrite map_map. by apply map_ext.
Qed.

(** From the first call on, [switch_mode] moves between exactly two
    states of the layer: a third call gives the layer the first call
    gave, whatever state the layer started in. *)
Theorem switch_mode_thrice (self : GRU F) (w : world F R) :
  exists s1 w1 s2 w2 s3 w3,
    switch_mode self w = (inr s1, w1)
    /\ switch_mode s1 w1 = (inr s2, w2)
    /\ switch_mode s2 w2 = (inr s3, w3)
    /\ s3 = s1
    /\ training s2 = training self
    /\ mode_consistent s1 /\ mode_consistent s2.
Proof.
  destruct (switch_mode_run self w) as [line1 Hrun1].
  destruct (switch_mode_run (switched self)
              (World (heap w) (gen w) (junk w) (stdout w ++ [line1])
                 (cuda_available w)))
    as [line2 Hrun2].
  destruct (switch_mode_run (switched (switched self))
              (World (heap w) (gen w) (junk w)
                 ((stdout w ++ [line1]) ++ [line2]) (cuda_available w)))
    as [line3 Hrun3].
  eexists _, _, _, _, _, _.
  split; [exact Hrun1|]. split; [exact Hrun2|]. split; [exact Hrun3|].
  split_and!.
  - apply switched_twice, switched_consistent.
  - simpl. by rewrite negb_involutive.
  - apply switched_consistent.
  - apply switched_consistent.
Qed.

End ModeMore.

(** ** The further properties on the fixed-point instance *)

Lemma zero_in_unit : fleb fzero 0%Z = true /\ fleb 0%Z (fone : Z) = true.
Proof. by split. Qed.

Lemma half_in_unit : fleb fzero 1%Z = true /\ fleb 1%Z (fone : Z) = true.
Proof. by split. Qed.

Lemma three_halves_outside :
  fleb fzero 3%Z && fleb 3%Z (fone : Z) = false.
Proof. reflexivity. Qed.

Lemma init_mode_consistent_iff_witness :
  exists self w',
    GRU_init 4 3 5 1 0%Z 0%Z 2 false false (world0 []) = (inr self, w')
    /\ training self = false
    /\ rnn_training (gru self) = true
    /\ ~ mode_consistent self.
Proof.
  destruct (init_mode_consistent_iff 4 3 5 1 0%Z 0%Z 2 false false
              (world0 []) (proj1 zero_in_unit) (proj2 zero_in_unit)
              ltac:(lia) ltac:(lia) ltac:(discriminate))
    as (self & w' & Hrun & Htr & _ & Hrt & Hiff).
  exists self, w'. split; [exact Hrun|]. split; [exact Htr|].
  split; [exact Hrt|]. intros Hm. apply Hiff in Hm. discriminate Hm.
Defined.

Lemma init_layer_usable_witness :
  fleb fzero 1%Z = true /\ fleb 1%Z (fone : Z) = true /\ 1 <= 3 /\ 1 <= 2
  /\ cuda_available (world0 []) = true
  /\ exists self w',
       GRU_init 4 3 5 2 1%Z 0%Z 2 true true (world0 []) = (inr self, w')
       /\ buffer_ready self w' /\ wf_layer self
       /\ length (parameters self) = 10.
Proof.
  split; [exact (proj1 half_in_unit)|].
  split; [exact (proj2 half_in_unit)|]. split; [lia|].
  split; [lia|]. split; [reflexivity|].
  destruct (init_layer_usable 4 3 5 2 1%Z 0%Z 2 true true (world0 [])
              (proj1 half_in_unit) (proj2 half_in_unit) ltac:(lia)
              ltac:(lia) (fun _ => eq_refl))
    as (self & w' & Hrun & _ & Hready & Hwf & Hlen).
  exists self, w'. split; [exact Hrun|]. split; [exact Hready|].
  split; [exact Hwf|exact Hlen].
Defined.

(** A dropout of three halves, and a stack without layers. *)
Lemma init_rejects_bad_arguments_witness :
  fleb fzero 3%Z && fleb 3%Z (fone : Z) = false
  /\ (exists w', GRU_init 4 3 5 1 3%Z 0%Z 2 false true (world0 [])
                 = (inl ValueError, w'))
  /\ (exists w', GRU_init 4 3 5 0 0%Z 0%Z 2 false true (world0 [])
                 = (inl ValueError, w')).
Proof.
  split; [exact three_halves_outside|]. split.
  - destruct (init_rejects_bad_arguments 4 3 5 1 3%Z 0%Z 2 true (world0 [])
                (or_introl three_halves_outside)) as (w' & Hrun & _).
    exists w'. exact Hrun.
  - destruct (init_rejects_bad_arguments 4 3 5 0 0%Z 0%Z 2 true (world0 [])
                (or_intror (or_intror eq_refl))) as (w' & Hrun & _).
    exists w'. exact Hrun.
Defined.

Lemma emb_changes_only_buffer_witness :
  buffer_ready layer_cuda world_cuda /\ valid_index 2 5 [2; 4]%Z
  /\ exists w',
       emb layer_cuda [2; 4]%Z false world_cuda = (inr 1, w')
       /\ length (heap w') = length (heap world_cuda)
       /\ heap w' !! 0 = heap world_cuda !! 0.
Proof.
  split; [exact cuda_buffer_ready|]. split; [exact valid_index_2_4|].
  destruct (emb_changes_only_buffer layer_cuda world_cuda [2; 4]%Z false
              cuda_buffer_ready valid_index_2_4)
    as (w' & Hrun & Hlen & Hothers & _).
  exists w'. split; [exact Hrun|]. split; [exact Hlen|].
  apply Hothers. discriminate.
Defined.

Lemma emb_recovers_after_failure_witness :
  buffer_ready layer_cuda world_cuda /\ valid_index 2 5 [0; 4]%Z
  /\ fst (emb layer_cuda [2; 5]%Z false world_cuda) = inl RangeError
  /\ exists w2,
       emb layer_cuda [0; 4]%Z false
         (snd (emb layer_cuda [2; 5]%Z false world_cuda)) = (inr 1, w2)
       /\ read w2 1 = Some [[2; 0; 0; 0; 0]; [0; 0; 0; 0; 2]]%Z.
Proof.
  split; [exact cuda_buffer_ready|]. split; [exact valid_index_0_4|].
  split; [vm_compute; reflexivity|].
  destruct (emb_recovers_after_failure layer_cuda world_cuda [2; 5]%Z
              [0; 4]%Z false false cuda_buffer_ready valid_index_0_4)
    as (_ & w2 & Hrun & Hread).
  exists w2. split; [exact Hrun|exact Hread].
Defined.

Lemma layer_train_quiet : stack_quiet (gru layer_train).
Proof. right. simpl. lia. Qed.

Lemma forward_train_draws_B_coins_witness :
  training layer_train = true /\ stack_quiet (gru layer_train)
  /\ snd (forward layer_train example_batch [2; 4]%Z example_hidden1
            (with_gen world_train [false; true; true; false]))
     = with_gen world_train [true; false].
Proof.
  split; [reflexivity|]. split; [exact layer_train_quiet|].
  rewrite (forward_train_draws_B_coins layer_train example_batch [2; 4]%Z
             example_hidden1
             (with_gen world_train [false; true; true; false])
             eq_refl layer_train_quiet).
  vm_compute. reflexivity.
Defined.

Lemma in_range_4_1_3 :
  Forall (fun k => (0 <= k < Z.of_nat 5)%Z) [4; 1; 3]%Z.
Proof. repeat constructor; lia. Qed.

Lemma forward_target_any_length_witness :
  training layer_train = true /\ wf_layer layer_train
  /\ shape2 2 4 example_batch /\ shape3 1 2 3 example_hidden1
  /\ Forall (fun k => (0 <= k < Z.of_nat 5)%Z) [4; 1; 3]%Z
  /\ exists logit hidden' w',
       forward layer_train example_batch [4; 1; 3]%Z example_hidden1
         world_train = (inr (logit, hidden'), w')
       /\ shape2 2 3 logit.
Proof.
  split; [reflexivity|]. split; [exact layer_train_wf|].
  split; [exact example_batch_shape|].
  split; [exact example_hidden1_shape|]. split; [exact in_range_4_1_3|].
  destruct (forward_target_any_length layer_train 2 example_batch
              [4; 1; 3]%Z example_hidden1 world_train eq_refl layer_train_wf
              example_batch_shape example_hidden1_shape in_range_4_1_3)
    as (logit & hidden' & w' & Hrun & Hsh & _).
  exists logit, hidden', w'. split; [exact Hrun|exact Hsh].
Defined.

Lemma out_of_range_2_5 :
  Exists (fun k => ~ (- Z.of_nat 5 <= k < Z.of_nat 5)%Z) [2; 5]%Z.
Proof. apply Exists_cons_tl, Exists_cons_hd. lia. Qed.

Lemma forward_bad_target_fails_witness :
  training layer_train = true /\ wf_layer layer_train
  /\ Exists (fun k => ~ (- Z.of_nat 5 <= k < Z.of_nat 5)%Z) [2; 5]%Z
  /\ exists w',
       forward layer_train example_batch [2; 5]%Z example_hidden1 world_train
       = (inl RangeError, w').
Proof.
  split; [reflexivity|]. split; [exact layer_train_wf|].
  split; [exact out_of_range_2_5|].
  destruct (forward_bad_target_fails layer_train 2 example_batch [2; 5]%Z
              example_hidden1 world_train eq_refl layer_train_wf
              example_batch_shape example_hidden1_shape out_of_range_2_5)
    as (w' & Hrun & _).
  exists w'. exact Hrun.
Defined.

Lemma wrapped_range_m2_m1 :
  Forall (fun k => (- Z.of_nat 5 <= k < Z.of_nat 5)%Z) [-2; -1]%Z.
Proof. repeat constructor; lia. Qed.

(** Targets -2 and -1 are the items 3 and 4. *)
Lemma forward_negative_target_wraps_witness :
  training layer_train = true /\ wf_layer layer_train
  /\ Forall (fun k => (- Z.of_nat 5 <= k < Z.of_nat 5)%Z) [-2; -1]%Z
  /\ exists e' w0 full hidden' w' logit,
       score layer_train e' example_hidden1 w0 = (inr (full, hidden'), w')
       /\ forward layer_train example_batch [-2; -1]%Z example_hidden1
            world_train = (inr (logit, hidden'), w')
       /\ shape2 2 2 logit
       /\ entry logit 0 0 = entry full 0 3
       /\ entry logit 1 1 = entry full 1 4.
Proof.
  split; [reflexivity|]. split; [exact layer_train_wf|].
  split; [exact wrapped_range_m2_m1|].
  destruct (forward_negative_target_wraps layer_train 2 example_batch
              [-2; -1]%Z example_hidden1 world_train eq_refl layer_train_wf
              example_batch_shape example_hidden1_shape wrapped_range_m2_m1)
    as (e' & w0 & full & hidden' & w' & logit & _ & Hscore & _ & Hrun & Hsh
        & Hcol).
  exists e', w0, full, hidden', w', logit.
  split; [exact Hscore|]. split; [exact Hrun|]. split; [exact Hsh|].
  split.
  - destruct (Hcol 0 0 (-2)%Z ltac:(lia) eq_refl) as (_ & _ & Hneg).
    exact (Hneg ltac:(lia)).
  - destruct (Hcol 1 1 (-1)%Z ltac:(lia) eq_refl) as (_ & _ & Hneg).
    exact (Hneg ltac:(lia)).
Defined.

Lemma two_layer_state_misfits :
  ~ (shape2 (length example_batch) 4 example_batch
     /\ shape3 1 (length example_batch) 3 example_hidden).
Proof. intros [_ [Hlen _]]. discriminate Hlen. Qed.

Lemma forward_rejects_bad_shapes_witness :
  wf_layer layer_eval
  /\ ~ (shape2 (length example_batch) 4 example_batch
        /\ shape3 1 (length example_batch) 3 example_hidden)
  /\ forward layer_eval example_batch [] example_hidden world_train
     = (inl ShapeError, world_train).
Proof.
  split; [exact layer_eval_wf|]. split; [exact two_layer_state_misfits|].
  destruct (forward_rejects_bad_shapes layer_eval example_batch []
              example_hidden world_train layer_eval_wf
              two_layer_state_misfits)
    as (w' & Hrun & _ & Hsame & _).
  rewrite Hrun. f_equal. exact (Hsame eq_refl).
Defined.

Lemma score_from_top_state_witness :
  wf_layer layer_train /\ shape2 2 4 example_batch
  /\ shape3 1 2 3 example_hidden1
  /\ exists full hidden' w' top,
       score layer_train example_batch example_hidden1 world_train
       = (inr (full, hidden'), w')
       /\ hidden' = [top]
       /\ full = map (fun row =>
                        map ftanh
                          (affine (value (weight (h2o layer_train)))
                             (value (bias (h2o layer_train))) row)) top.
Proof.
  split; [exact layer_train_wf|]. split; [exact example_batch_shape|].
  split; [exact example_hidden1_shape|].
  destruct (score_from_top_state layer_train 2 example_batch example_hidden1
              world_train layer_train_wf example_batch_shape
              example_hidden1_shape)
    as (full & hidden' & w' & top & Hrun & Hlast & Hfull).
  destruct (score_ok layer_train 2 example_batch example_hidden1 world_train
              layer_train_wf example_batch_shape example_hidden1_shape)
    as (full2 & hs2 & w2 & Hrun2 & _ & _ & [Hlen _]).
  rewrite Hrun in Hrun2. injection Hrun2 as _ <- _.
  exists full, hidden', w', top. split; [exact Hrun|]. split; [|exact Hfull].
  destruct hidden' as [|t0 [|t1 rest]]; try discriminate Hlen.
  simpl in Hlast. injection Hlast as ->. reflexivity.
Defined.
